(** * Sparse SGD linear models: orchestration layer

    Shallow embedding of
    [scikits/learn/linear_model/sparse/stochastic_gradient.py]
    ([SGDClassifier], [_train_ova_classifier], [SGDRegressor]) and of the
    array and sparse-matrix operations it relies on. *)

From stdpp Require Import base list.
From Stdlib Require Import ZArith Lia.


(** ** Scalars

    The entries of every array are float64 values.  The development is
    parametric in the carrier: only the two constants the code writes
    ([1.0] and [-1.0]), zero, addition, multiplication and the test
    [x != 0] are needed.  Arithmetic laws are never assumed silently;
    every theorem that needs one lists it as a hypothesis. *)

Class Scalar (F : Type) := {
  f0 : F;
  f1 : F;
  fneg1 : F;
  fadd : F → F → F;
  fmul : F → F → F;
  scalar_eq_dec :: EqDecision F
}.

(** ** Dense arrays *)

Section Arrays.
Context {F : Type} `{Scalar F}.

(** A numpy array of dimension 0, 1 or 2.  [Arr2 n rows] has shape
    [(length rows, n)]. *)
Inductive ndarray :=
| Arr0 (x : F)
| Arr1 (v : list F)
| Arr2 (n : nat) (rows : list (list F)).

Definition wf_ndarray (a : ndarray) : Prop :=
  match a with
  | Arr2 n rows => Forall (λ r, length r = n) rows
  | _ => True
  end.

Definition is_1d (a : ndarray) : bool :=
  match a with Arr1 _ => true | _ => false end.

(** [np.atleast_2d] *)
Definition atleast_2d (a : ndarray) : ndarray :=
  match a with
  | Arr0 x => Arr2 1 [[x]]
  | Arr1 v => Arr2 (length v) [v]
  | Arr2 n rows => Arr2 n rows
  end.

(** ** Compressed sparse rows *)

Record csr := Csr {
  n_rows : nat;
  n_cols : nat;
  data : list F;
  indices : list nat;
  indptr : list nat
}.

(** The stored entries of one dense row: the positions holding a value
    [!= 0], with that value. *)
Definition sparse_row (r : list F) : list (nat * F) :=
  filter (λ p, p.2 ≠ f0) (imap pair r).

(** Row-start offsets: running sums of the row sizes. *)
Fixpoint offsets (start : nat) (lens : list nat) : list nat :=
  match lens with
  | [] => [start]
  | n :: ns => start :: offsets (start + n) ns
  end.

Definition csr_of_rows (n : nat) (rows : list (list F)) : csr :=
  let es := sparse_row <$> rows in
  {| n_rows := length rows;
     n_cols := n;
     data := (concat es).*2;
     indices := (concat es).*1;
     indptr := offsets 0 (length <$> es) |}.

(** [sparse.csr_matrix(a)] for a dense array [a]: arrays of dimension
    below 2 are first viewed as one row. *)
Definition csr_matrix (a : ndarray) : csr :=
  match a with
  | Arr0 x => csr_of_rows 1 [[x]]
  | Arr1 v => csr_of_rows (length v) [v]
  | Arr2 n rows => csr_of_rows n rows
  end.

(** The entries of row [r]: the slice [indptr[r] : indptr[r+1]] of
    [indices] and [data]. *)
Definition csr_row (A : csr) (r : nat) : list (nat * F) :=
  match indptr A !! r, indptr A !! S r with
  | Some lo, Some hi =>
      zip (take (hi - lo) (drop lo (indices A)))
          (take (hi - lo) (drop lo (data A)))
  | _, _ => []
  end.

Definition dense_row (n : nat) (es : list (nat * F)) : list F :=
  foldl (λ acc p, <[p.1 := p.2]> acc) (replicate n f0) es.

(** [A.todense()] *)
Definition todense (A : csr) : ndarray :=
  Arr2 (n_cols A)
       ((λ r, dense_row (n_cols A) (csr_row A r)) <$> seq 0 (n_rows A)).

End Arrays.

Arguments ndarray F : clear implicits.
Arguments csr F : clear implicits.

(** ** Array operations used by the estimators *)

Section ArrayOps.
Context {F : Type} `{Scalar F}.

(** Exceptions the module lets escape to its caller.  [Unmodelled] is not
    one of them: a run ends with it at the point where the program stores
    a value that [ndarray] does not cover (an array of dtype object); the
    estimator given with it is the one reached before that store. *)
Inductive exn :=
  IndexError | TypeError | ValueError | AttributeError | KernelError | Unmodelled.

Inductive result (A : Type) :=
| Ok (a : A)
| Raise (e : exn).
Global Arguments Ok {A} a.
Global Arguments Raise {A} e.

(** [a[i]]: a row of a matrix, an element of a vector; a 0-d array
    cannot be indexed. *)
Definition getitem (a : ndarray F) (i : nat) : result (ndarray F) :=
  match a with
  | Arr0 _ => Raise IndexError
  | Arr1 v =>
      match v !! i with Some x => Ok (Arr0 x) | None => Raise IndexError end
  | Arr2 n rows =>
      match rows !! i with Some r => Ok (Arr1 r) | None => Raise IndexError end
  end.

(** [a[i] = v] for a 1-d value [v]: the value must fit the slot, a single
    element being broadcast over it. *)
Definition setitem_vec (a : ndarray F) (i : nat) (v : list F) : result (ndarray F) :=
  match a with
  | Arr0 _ => Raise IndexError
  | Arr1 w =>
      if decide (i < length w) then
        match v with
        | [x] => Ok (Arr1 (<[i := x]> w))
        | _ => Raise ValueError
        end
      else Raise IndexError
  | Arr2 n rows =>
      if decide (i < length rows) then
        if decide (length v = n) then Ok (Arr2 n (<[i := v]> rows))
        else match v with
             | [x] => Ok (Arr2 n (<[i := replicate n x]> rows))
             | _ => Raise ValueError
             end
      else Raise IndexError
  end.

(** [a[i] = x] for a scalar [x]. *)
Definition setitem_scalar (a : ndarray F) (i : nat) (x : F) : result (ndarray F) :=
  match a with
  | Arr0 _ => Raise IndexError
  | Arr1 w =>
      if decide (i < length w) then Ok (Arr1 (<[i := x]> w))
      else Raise IndexError
  | Arr2 n rows =>
      if decide (i < length rows) then Ok (Arr2 n (<[i := replicate n x]> rows))
      else Raise IndexError
  end.

(** Shape and entries of an array seen in two dimensions. *)
Definition shape2 (a : ndarray F) : nat * nat :=
  match a with
  | Arr0 _ => (1, 1)
  | Arr1 v => (1, length v)
  | Arr2 n rows => (length rows, n)
  end.

Definition entry (a : ndarray F) (i j : nat) : F :=
  match a with
  | Arr0 x => x
  | Arr1 v => default f0 (v !! j)
  | Arr2 _ rows => default f0 (rows !! i ≫= (.!! j))
  end.

(** Broadcasting of one dimension: equal extents, or one of them is 1. *)
Definition bc_dim (a b : nat) : option nat :=
  if decide (a = b) then Some a
  else if decide (a = 1) then Some b
  else if decide (b = 1) then Some a
  else None.

Definition bc_idx (extent i : nat) : nat :=
  if decide (extent = 1) then 0 else i.

(** [m + b] for a matrix [m] and an array [b], with broadcasting; the sum
    of a matrix and an array is two-dimensional. *)
Definition add_broadcast (m b : ndarray F) : result (ndarray F) :=
  let '(rm, cm) := shape2 m in
  let '(rb, cb) := shape2 b in
  match bc_dim rm rb, bc_dim cm cb with
  | Some r, Some c =>
      Ok (Arr2 c ((λ i, (λ j, fadd (entry m (bc_idx rm i) (bc_idx cm j))
                                    (entry b (bc_idx rb i) (bc_idx cb j)))
                          <$> seq 0 c) <$> seq 0 r))
  | _, _ => Raise ValueError
  end.

(** Writing the values [vs] into the slots of [l], first slot first: the
    slots beyond the values keep their entry, the values beyond the slots
    are dropped. *)
Definition overwrite (l vs : list F) : list F :=
  take (length l) vs ++ drop (length vs) l.

(** The array [a] after the values [vs] have been written into its
    buffer, row by row: the shape of [a] stays as it is. *)
Definition refill (a : ndarray F) (vs : list F) : ndarray F :=
  match a with
  | Arr0 x => Arr0 (default x (head vs))
  | Arr1 v => Arr1 (overwrite v vs)
  | Arr2 n rows => Arr2 n (imap (λ i r, overwrite r (drop (i * n) vs)) rows)
  end.

(** [np.ravel] *)
Definition ravel (a : ndarray F) : ndarray F :=
  match a with
  | Arr0 x => Arr1 [x]
  | Arr1 v => Arr1 v
  | Arr2 _ rows => Arr1 (concat rows)
  end.

(** One entry of a product of two sparse matrices, [X] by the transpose
    of [W]: the products of the stored entries of a row of [X] with the
    stored entries of a row of [W] in the same column, accumulated from
    zero in the order of the entries of [X]. *)
Definition row_dot (xs ws : list (nat * F)) : F :=
  foldl (λ acc x,
           foldl (λ acc' w,
                    if decide (w.1 = x.1) then fadd acc' (fmul x.2 w.2)
                    else acc') acc ws)
        f0 xs.

(** [np.dot(X, W.T).todense()] for sparse [X] and [W]. *)
Definition dot_T_todense (X W : csr F) : result (ndarray F) :=
  if decide (n_cols X = n_cols W) then
    Ok (Arr2 (n_rows W)
             ((λ s, (λ c, row_dot (csr_row X s) (csr_row W c))
                      <$> seq 0 (n_rows W)) <$> seq 0 (n_rows X)))
  else Raise ValueError.

(** A feature matrix handed to [fit] or to the decision function. *)
Inductive matrix :=
| Dense (a : ndarray F)
| Sparse (A : csr F).

(** [sparse.csr_matrix(X)] for either kind of input. *)
Definition as_csr (X : matrix) : csr F :=
  match X with
  | Dense a => csr_matrix a
  | Sparse A => A
  end.

(** [np.ones(y.shape) * -1.0] *)
Definition neg_ones {L} (y : list L) : list F :=
  (λ _, fmul f1 fneg1) <$> y.

(** The boolean mask [y == c]. *)
Definition eq_mask {L} `{EqDecision L} (y : list L) (c : L) : list bool :=
  (λ l, bool_decide (l = c)) <$> y.

(** [a[mask] = x] *)
Definition mask_assign (a : list F) (mask : list bool) (x : F) : list F :=
  zip_with (λ v (m : bool), if m then x else v) a mask.

End ArrayOps.

Arguments matrix F : clear implicits.

(** ** Estimator state, kernel interface and the effect monad *)

Section Estimators.
Context {F : Type} `{Scalar F}.
(** Class labels, compared with [==]. *)
Context {L : Type} `{EqDecision L}.
(** Loss-function objects ([self.loss_function]). *)
Context {Loss : Type}.

(** The constructor parameters, fixed during [fit]. *)
Record hyper := {
  loss_function : Loss;
  penalty_type : Z;
  alpha : F;
  rho : F;
  n_iter : Z;
  fit_intercept : bool;
  verbose : Z;
  shuffle : bool;
  seed : Z;
  n_jobs : Z;
  learning_rate_code : Z;
  eta0 : F;
  power_t : F
}.

(** The attributes of an estimator object.  [coef_] and [sparse_coef_]
    may hold [None]. *)
Record estimator := {
  params : hyper;
  classes : list L;
  class_weight : list F;
  sample_weight : list F;
  coef_ : option (ndarray F);
  sparse_coef_ : option (csr F);
  intercept_ : ndarray F
}.

Definition with_coef (st : estimator) (c : option (ndarray F))
    (sc : option (csr F)) : estimator :=
  {| params := params st; classes := classes st;
     class_weight := class_weight st; sample_weight := sample_weight st;
     coef_ := c; sparse_coef_ := sc; intercept_ := intercept_ st |}.

Definition with_intercept (st : estimator) (b : ndarray F) : estimator :=
  {| params := params st; classes := classes st;
     class_weight := class_weight st; sample_weight := sample_weight st;
     coef_ := coef_ st; sparse_coef_ := sparse_coef_ st; intercept_ := b |}.

(** The positional arguments of one call of the SGD kernel.  The first
    one is whatever [self.coef_] holds, an array or [None]. *)
Record sgd_args := {
  k_w : option (ndarray F);
  k_intercept : ndarray F;
  k_loss : Loss;
  k_penalty_type : Z;
  k_alpha : F;
  k_rho : F;
  k_X_data : list F;
  k_X_indices : list nat;
  k_X_indptr : list nat;
  k_Y : list F;
  k_n_iter : Z;
  k_fit_intercept : Z;
  k_verbose : Z;
  k_shuffle : Z;
  k_seed : Z;
  k_weight_pos : F;
  k_weight_neg : F;
  k_sample_weight : list F;
  k_learning_rate : Z;
  k_eta0 : F;
  k_power_t : F
}.

(** Modelled from the spec: the SGD kernel [plain_sgd] lives in the
    compiled module [sgd_fast_sparse], which is not part of the sources.
    It is taken as a parameter: what it returns, the updated weights and
    the updated intercept, is a function of its arguments; it has no
    result when it fails.  The kernel works in place ([coef_] is "mutated
    in place by each fit call"): the weights it returns are the array it
    was handed, updated; see [write_in_place].  A kernel that fails
    leaves the array as it was. *)
Context (plain_sgd : sgd_args → option (list F * F)).

(** A computation reads and updates the estimator, may raise, and
    records the kernel calls it makes, in order. *)
Definition M (A : Type) : Type :=
  estimator → result A * estimator * list sgd_args.

Global Instance M_ret : MRet M := λ A a st, (Ok a, st, []).

Global Instance M_bind : MBind M := λ A B f m st,
  match m st with
  | (Ok a, st', calls) =>
      let '(r, st'', calls') := f a st' in (r, st'', calls ++ calls')
  | (Raise e, st', calls) => (Raise e, st', calls)
  end.

Definition raise {A} (e : exn) : M A := λ st, (Raise e, st, []).
Definition get : M estimator := λ st, (Ok st, st, []).
Definition put (st : estimator) : M unit := λ _, (Ok (), st, []).

Definition lift {A} (r : result A) : M A := λ st, (r, st, []).

Definition index {A} (l : list A) (i : nat) : M A :=
  match l !! i with Some x => mret x | None => raise IndexError end.

Definition call_plain_sgd (args : sgd_args) : M (list F * F) := λ st,
  (match plain_sgd args with Some r => Ok r | None => Raise KernelError end,
   st, [args]).

Fixpoint for_each {A B} (f : A → M B) (l : list A) : M (list B) :=
  match l with
  | [] => mret []
  | a :: l' => b ← f a; bs ← for_each f l'; mret (b :: bs)
  end.

(** Python's [int(b)] for a boolean. *)
Definition int_of_bool (b : bool) : Z := if b then 1%Z else 0%Z.

(** [enumerate(l)] *)
Definition enumerate {A} (l : list A) : list (nat * A) := imap pair l.

(** ** SGDClassifier *)

Definition _set_coef (c : option (ndarray F)) : M unit :=
  st ← get;
  put (with_coef st c (csr_matrix <$> c)).

Definition set_intercept (b : ndarray F) : M unit :=
  st ← get;
  put (with_intercept st b).

(** [self.coef_] under a subscript ([self.coef_[i]]): [None] cannot be
    subscripted. *)
Definition the_coef : M (ndarray F) :=
  st ← get;
  match coef_ st with Some a => mret a | None => raise TypeError end.

(** Modelled from the spec: the effect of a kernel call that was handed
    [self.coef_] itself and returned the weights [vs].  The kernel has
    written them into the array it was handed, so [self.coef_] holds
    them, in the shape it had; when [self.coef_] is [None] there is no
    array to write to. *)
Definition write_in_place (vs : list F) : M unit :=
  st ← get;
  match coef_ st with
  | Some a => put (with_coef st (Some (refill a vs)) (sparse_coef_ st))
  | None => mret ()
  end.

(** [np.array(X.data, dtype=np.float64, order="C")] and the two
    conversions next to it copy the arrays of [X] as they are.  The
    kernel is handed [self.coef_] as it is, an array or [None].  The
    weights it returns are bound to the local name [coef_], which is not
    used afterwards: [_set_coef] is given [self.coef_], the array that
    the kernel has updated.  [np.atleast_2d(None)] is an array of dtype
    object, which [_set_coef] stores before [sparse.csr_matrix] raises on
    it: that run ends in [Unmodelled]. *)
Definition _fit_binary (X : matrix F) (y : list L) : M unit :=
  let X := as_csr X in
  self ← get;
  c1 ← index (classes self) 1;
  let y_new := mask_assign (neg_ones y) (eq_mask y c1) f1 in
  let y := y_new in
  let X_data := data X in
  let X_indices := indices X in
  let X_indptr := indptr X in
  cw1 ← index (class_weight self) 1;
  cw0 ← index (class_weight self) 0;
  '(coef, intercept) ← call_plain_sgd
    {| k_w := coef_ self; k_intercept := intercept_ self;
       k_loss := loss_function (params self);
       k_penalty_type := penalty_type (params self);
       k_alpha := alpha (params self); k_rho := rho (params self);
       k_X_data := X_data; k_X_indices := X_indices; k_X_indptr := X_indptr;
       k_Y := y;
       k_n_iter := n_iter (params self);
       k_fit_intercept := int_of_bool (fit_intercept (params self));
       k_verbose := verbose (params self);
       k_shuffle := int_of_bool (shuffle (params self));
       k_seed := seed (params self);
       k_weight_pos := cw1; k_weight_neg := cw0;
       k_sample_weight := sample_weight self;
       k_learning_rate := learning_rate_code (params self);
       k_eta0 := eta0 (params self); k_power_t := power_t (params self) |};
  write_in_place coef;;
  (* self._set_coef(np.atleast_2d(self.coef_)) *)
  self ← get;
  match coef_ self with
  | Some a => _set_coef (Some (atleast_2d a))
  | None => raise Unmodelled
  end;;
  set_intercept (Arr0 intercept).

Definition _train_ova_classifier (i : nat) (c : L)
    (X_data : list F) (X_indices X_indptr : list nat) (y : list L)
    (coef_ intercept_ : ndarray F) (loss_function : Loss) (penalty_type : Z)
    (alpha rho : F) (n_iter : Z) (fit_intercept : bool) (verbose : Z)
    (shuffle : bool) (seed : Z) (class_weight_pos : F)
    (sample_weight : list F) (learning_rate : Z) (eta0 power_t : F)
    : M (nat * list F * F) :=
  let y_i := mask_assign (neg_ones y) (eq_mask y c) f1 in
  '(coef, intercept) ← call_plain_sgd
    {| k_w := Some coef_; k_intercept := intercept_;
       k_loss := loss_function; k_penalty_type := penalty_type;
       k_alpha := alpha; k_rho := rho;
       k_X_data := X_data; k_X_indices := X_indices; k_X_indptr := X_indptr;
       k_Y := y_i;
       k_n_iter := n_iter;
       k_fit_intercept := int_of_bool fit_intercept;
       k_verbose := verbose;
       k_shuffle := int_of_bool shuffle;
       k_seed := seed;
       k_weight_pos := class_weight_pos; k_weight_neg := f1;
       k_sample_weight := sample_weight;
       k_learning_rate := learning_rate;
       k_eta0 := eta0; k_power_t := power_t |};
  mret (i, coef, intercept).

(** The argument list of one delayed call: [self.coef_[i]],
    [self.intercept_[i]] and [self.class_weight[i]] are read when the
    task is created. *)
Definition ova_task (X_data : list F) (X_indices X_indptr : list nat)
    (y : list L) (ic : nat * L) : M (nat * list F * F) :=
  let '(i, c) := ic in
  self ← get;
  W ← the_coef;
  w ← lift (getitem W i);
  b ← lift (getitem (intercept_ self) i);
  cw ← index (class_weight self) i;
  _train_ova_classifier i c X_data X_indices X_indptr y w b
    (loss_function (params self)) (penalty_type (params self))
    (alpha (params self)) (rho (params self)) (n_iter (params self))
    (fit_intercept (params self)) (verbose (params self))
    (shuffle (params self)) (seed (params self)) cw
    (sample_weight self) (learning_rate_code (params self))
    (eta0 (params self)) (power_t (params self)).

(** Modelled from the spec: the parallel dispatch collaborator
    ([joblib.Parallel], not part of the sources) runs every task to
    completion and returns the results attributed to their input index;
    a failing task makes the whole dispatch fail.  A worker of the pool
    receives the arguments of its task by value, so what the kernel
    writes into the weights it is handed reaches the estimator only
    through the result of the task.  The tasks do not change the
    estimator, so the degree of parallelism ([n_jobs]) has no bearing on
    the outcome. *)
Definition Parallel {A B} (task : A → M B) (work : list A) : M (list B) :=
  for_each task work.

(** One iteration of the loop [for i, coef, intercept in res]. *)
Definition write_back (r : nat * list F * F) : M unit :=
  let '(i, coef, intercept) := r in
  W ← the_coef;
  W' ← lift (setitem_vec W i coef);
  self ← get;
  put (with_coef self (Some W') (sparse_coef_ self));;
  self ← get;
  b' ← lift (setitem_scalar (intercept_ self) i intercept);
  set_intercept b'.

Definition _fit_multiclass (X : matrix F) (y : list L) : M unit :=
  let X := as_csr X in
  let X_data := data X in
  let X_indices := indices X in
  let X_indptr := indptr X in
  self ← get;
  res ← Parallel (ova_task X_data X_indices X_indptr y)
                 (enumerate (classes self));
  for_each write_back res;;
  self ← get;
  _set_coef (coef_ self);;
  self ← get;
  set_intercept (intercept_ self).

Definition decision_function (X : matrix F) : M (ndarray F) :=
  let X := match X with
           | Sparse A => A
           | Dense a => csr_matrix a
           end in
  self ← get;
  W ← match sparse_coef_ self with
      | Some W => mret W
      | None => raise AttributeError
      end;
  prod ← lift (dot_T_todense X W);
  scores ← lift (add_broadcast prod (intercept_ self));
  if decide (length (classes self) = 2) then mret (ravel scores)
  else mret scores.

(** ** SGDRegressor

    The regressor object carries the same attributes, except that it has
    no class list and no class weights; its methods never read them. *)

Definition SGDRegressor_set_coef (c : option (ndarray F)) : M unit :=
  st ← get;
  put (with_coef st c (csr_matrix <$> c)).

Definition _fit_regressor (X : matrix F) (y : list F) : M unit :=
  let X := as_csr X in
  let X_data := data X in
  let X_indices := indices X in
  let X_indptr := indptr X in
  self ← get;
  '(coef, intercept) ← call_plain_sgd
    {| k_w := coef_ self; k_intercept := intercept_ self;
       k_loss := loss_function (params self);
       k_penalty_type := penalty_type (params self);
       k_alpha := alpha (params self); k_rho := rho (params self);
       k_X_data := X_data; k_X_indices := X_indices; k_X_indptr := X_indptr;
       k_Y := y;
       k_n_iter := n_iter (params self);
       k_fit_intercept := int_of_bool (fit_intercept (params self));
       k_verbose := verbose (params self);
       k_shuffle := int_of_bool (shuffle (params self));
       k_seed := seed (params self);
       k_weight_pos := f1; k_weight_neg := f1;
       k_sample_weight := sample_weight self;
       k_learning_rate := learning_rate_code (params self);
       k_eta0 := eta0 (params self); k_power_t := power_t (params self) |};
  write_in_place coef;;
  (* self._set_coef(self.coef_) *)
  self ← get;
  SGDRegressor_set_coef (coef_ self);;
  set_intercept (Arr0 intercept).

Definition predict (X : matrix F) : M (ndarray F) :=
  let X := match X with
           | Sparse A => A
           | Dense a => csr_matrix a
           end in
  self ← get;
  W ← match sparse_coef_ self with
      | Some W => mret W
      | None => raise AttributeError
      end;
  prod ← lift (dot_T_todense X W);
  scores ← lift (add_broadcast prod (intercept_ self));
  mret (ravel scores).

(** The three training entry points. *)
Inductive fit_op :=
| FitBinary (X : matrix F) (y : list L)
| FitMulticlass (X : matrix F) (y : list L)
| FitRegressor (X : matrix F) (y : list F).

Definition run_fit (op : fit_op) : M unit :=
  match op with
  | FitBinary X y => _fit_binary X y
  | FitMulticlass X y => _fit_multiclass X y
  | FitRegressor X y => _fit_regressor X y
  end.


(** ** Vocabulary of the statements *)

(** [args] is the argument list of the kernel call for class index [i]
    with label [c]: the weights and the intercept are the entries of the
    estimator at index [i], the labels are the one-vs-rest encoding of
    [y], the weight of the positive class is [class_weight[i]] and that
    of the negative class is [1.0]. *)
Definition is_ova_call (st : estimator) (y : list L) (i : nat) (c : L)
    (args : sgd_args) : Prop :=
  ∃ W, coef_ st = Some W ∧
       (∃ w, getitem W i = Ok w ∧ k_w args = Some w) ∧
       getitem (intercept_ st) i = Ok (k_intercept args) ∧
       class_weight st !! i = Some (k_weight_pos args) ∧
       k_weight_neg args = f1 ∧
       k_Y args = mask_assign (neg_ones y) (eq_mask y c) f1.

(** The one-vs-rest encoding of a label vector for the class [c]. *)
Definition one_vs_rest (y : list L) (c : L) : list F :=
  (λ l, if decide (l = c) then f1 else fneg1) <$> y.

Definition wf_coef (st : estimator) : Prop :=
  match coef_ st with Some a => wf_ndarray a | None => True end.

(** [_fit_multiclass] with the results written back in another order. *)
Definition _fit_multiclass_reordered
    (reorder : list (nat * list F * F) → list (nat * list F * F))
    (X : matrix F) (y : list L) : M unit :=
  let X := as_csr X in
  self ← get;
  res ← Parallel (ova_task (data X) (indices X) (indptr X) y)
                 (enumerate (classes self));
  for_each write_back (reorder res);;
  self ← get;
  _set_coef (coef_ self);;
  self ← get;
  set_intercept (intercept_ self).

(** The shape of a feature matrix and its stored entries, row by row
    (a dense matrix is converted to sparse first). *)
Definition n_samples (X : matrix F) : nat := n_rows (as_csr X).
Definition n_features (X : matrix F) : nat := n_cols (as_csr X).
Definition stored_rows (X : matrix F) : list (list (nat * F)) :=
  csr_row (as_csr X) <$> seq 0 (n_rows (as_csr X)).

(** A row of [X] times a row of the sparse weights: the sum, over the
    stored entries of the row of [X] whose column has a weight that is
    not zero, of the entry times that weight. *)
Definition sdot (xs : list (nat * F)) (w : list F) : F :=
  foldl (λ acc e,
           match w !! e.1 with
           | Some x => if decide (x = f0) then acc else fadd acc (fmul e.2 x)
           | None => acc
           end) f0 xs.

(** The same sum with the zero weights and the columns out of range
    counted as zero. *)
Definition sdot_plain (xs : list (nat * F)) (w : list F) : F :=
  foldl (λ acc e, fadd acc (fmul e.2 (default f0 (w !! e.1)))) f0 xs.

(** The dot product of two dense rows, accumulated from zero, left to
    right. *)
Definition dense_dot (x w : list F) : F :=
  foldl (λ acc p, fadd acc (fmul p.1 p.2)) f0 (zip x w).

(** [X · Wᵗ + b]: one row per sample, one column per row of [W]. *)
Definition linear_scores (X : matrix F) (W : list (list F)) (b : list F)
    : list (list F) :=
  (λ xs, zip_with (λ w b, fadd (sdot xs w) b) W b) <$> stored_rows X.

Inductive model_kind := Binary | Multiclass | Regressor.

(** The attributes of a fitted estimator with [n] features: [W] holds the
    weight vectors and [b] the intercepts, one per row of [W]. *)
Definition fitted (kind : model_kind) (st : estimator) (n : nat)
    (W : list (list F)) (b : list F) : Prop :=
  Forall (λ r, length r = n) W ∧ length b = length W ∧
  match kind with
  | Binary =>
      length (classes st) = 2 ∧ length W = 1 ∧
      coef_ st = Some (Arr2 n W) ∧
      sparse_coef_ st = Some (csr_matrix (Arr2 n W)) ∧
      ∃ b0, b = [b0] ∧ intercept_ st = Arr0 b0
  | Multiclass =>
      length (classes st) ≠ 2 ∧ length W = length (classes st) ∧
      coef_ st = Some (Arr2 n W) ∧
      sparse_coef_ st = Some (csr_matrix (Arr2 n W)) ∧
      intercept_ st = Arr1 b
  | Regressor =>
      ∃ w b0, W = [w] ∧ b = [b0] ∧
      coef_ st = Some (Arr1 w) ∧
      sparse_coef_ st = Some (csr_matrix (Arr1 w)) ∧
      intercept_ st = Arr0 b0
  end.

(** The scoring method of each kind of model. *)
Definition scores_of (kind : model_kind) (X : matrix F) : M (ndarray F) :=
  match kind with
  | Regressor => predict X
  | _ => decision_function X
  end.

(** ** Further vocabulary *)

(** The feature matrix of a training call. *)
Definition fit_input (op : fit_op) : matrix F :=
  match op with
  | FitBinary X _ => X
  | FitMulticlass X _ => X
  | FitRegressor X _ => X
  end.

(** [args] carries the three arrays of [X] and the constructor
    parameters and sample weights of the estimator, the two flags as
    [0] or [1]. *)
Definition carries_config (st : estimator) (X : matrix F) (args : sgd_args)
    : Prop :=
  k_loss args = loss_function (params st) ∧
  k_penalty_type args = penalty_type (params st) ∧
  k_alpha args = alpha (params st) ∧
  k_rho args = rho (params st) ∧
  k_X_data args = data (as_csr X) ∧
  k_X_indices args = indices (as_csr X) ∧
  k_X_indptr args = indptr (as_csr X) ∧
  k_n_iter args = n_iter (params st) ∧
  k_fit_intercept args = int_of_bool (fit_intercept (params st)) ∧
  k_verbose args = verbose (params st) ∧
  k_shuffle args = int_of_bool (shuffle (params st)) ∧
  k_seed args = seed (params st) ∧
  k_sample_weight args = sample_weight st ∧
  k_learning_rate args = learning_rate_code (params st) ∧
  k_eta0 args = eta0 (params st) ∧
  k_power_t args = power_t (params st).

(** The argument list [b] with the weights, the intercept, the labels
    and the weight of the positive class of [a]. *)
Definition with_task_of (a b : sgd_args) : sgd_args :=
  {| k_w := k_w a; k_intercept := k_intercept a;
     k_loss := k_loss b; k_penalty_type := k_penalty_type b;
     k_alpha := k_alpha b; k_rho := k_rho b;
     k_X_data := k_X_data b; k_X_indices := k_X_indices b;
     k_X_indptr := k_X_indptr b;
     k_Y := k_Y a;
     k_n_iter := k_n_iter b; k_fit_intercept := k_fit_intercept b;
     k_verbose := k_verbose b; k_shuffle := k_shuffle b; k_seed := k_seed b;
     k_weight_pos := k_weight_pos a; k_weight_neg := k_weight_neg b;
     k_sample_weight := k_sample_weight b;
     k_learning_rate := k_learning_rate b;
     k_eta0 := k_eta0 b; k_power_t := k_power_t b |}.

(** The attributes that no training call writes. *)
Definition same_settings (st st' : estimator) : Prop :=
  params st' = params st ∧ classes st' = classes st ∧
  class_weight st' = class_weight st ∧ sample_weight st' = sample_weight st.

(** A score matrix as the scoring method of each kind returns it. *)
Definition view_scores (kind : model_kind) (W S : list (list F)) : ndarray F :=
  match kind with
  | Multiclass => Arr2 (length W) S
  | _ => Arr1 (concat S)
  end.

(** [X · Wᵗ + b] for dense rows, with dense dot products. *)
Definition dense_scores (rows W : list (list F)) (b : list F)
    : list (list F) :=
  (λ x, zip_with (λ w b, fadd (dense_dot x w) b) W b) <$> rows.

End Estimators.

Arguments hyper F Loss : clear implicits.
Arguments estimator F L Loss : clear implicits.
Arguments sgd_args F Loss : clear implicits.
Arguments fit_op F L : clear implicits.
Arguments M F L Loss A : clear implicits.

(** ** A concrete instance

    Scalars with integral values, integer labels and a toy kernel, used
    to run the model on explicit inputs. *)

Module Sample.

#[export] Instance Z_scalar : Scalar Z :=
  {| f0 := 0%Z; f1 := 1%Z; fneg1 := (-1)%Z; fadd := Z.add; fmul := Z.mul |}.

(** The entries of the weights handed to a kernel. *)
Definition handed_weights (w : option (ndarray Z)) : list Z :=
  match ravel <$> w with Some (Arr1 v) => v | _ => [] end.

(** A kernel that moves every weight by the number of positive labels,
    adds one to the intercept, and fails when the weight it is given for
    the positive class is zero. *)
Definition toy_sgd (a : sgd_args Z unit) : option (list Z * Z) :=
  if decide (k_weight_pos a = 0%Z) then None
  else
    let step := Z.of_nat (length (filter (λ v, v = 1%Z) (k_Y a))) in
    let w := handed_weights (k_w a) in
    let b := match ravel (k_intercept a) with
             | Arr1 (b :: _) => b
             | _ => 0%Z
             end in
    Some ((λ x, (x + step)%Z) <$> w, (b + 1)%Z).

Definition defaults : hyper Z unit :=
  {| loss_function := (); penalty_type := 2%Z; alpha := 1%Z; rho := 1%Z;
     n_iter := 5%Z; fit_intercept := true; verbose := 0%Z; shuffle := false;
     seed := 0%Z; n_jobs := 1%Z; learning_rate_code := 2%Z;
     eta0 := 0%Z; power_t := 1%Z |}.

(** Four samples with two features, as in the docstring example. *)
Definition X4 : matrix Z :=
  Dense (Arr2 2 [[-1; -1]; [-2; -1]; [1; 1]; [2; 1]]%Z).

(** A binary classifier as allocated before its first fit. *)
Definition binary0 : estimator Z nat unit :=
  {| params := defaults; classes := [1; 2]; class_weight := [1; 1]%Z;
     sample_weight := [1; 1; 1; 1]%Z;
     coef_ := Some (Arr1 [0; 0]%Z);
     sparse_coef_ := Some (csr_matrix (Arr1 [0; 0]%Z));
     intercept_ := Arr1 [0%Z] |}.

(** A three-class classifier as allocated before its first fit. *)
Definition multi0 : estimator Z nat unit :=
  {| params := defaults; classes := [1; 2; 3]; class_weight := [1; 2; 3]%Z;
     sample_weight := [1; 1; 1; 1]%Z;
     coef_ := Some (Arr2 2 [[0; 0]; [0; 0]; [0; 0]]%Z);
     sparse_coef_ := Some (csr_matrix (Arr2 2 [[0; 0]; [0; 0]; [0; 0]]%Z));
     intercept_ := Arr1 [0; 0; 0]%Z |}.


(** A regressor as allocated before its first fit. *)
Definition regressor0 : estimator Z nat unit :=
  {| params := defaults; classes := []; class_weight := [];
     sample_weight := [1; 1; 1; 1]%Z;
     coef_ := Some (Arr1 [3; 0]%Z);
     sparse_coef_ := Some (csr_matrix (Arr1 [3; 0]%Z));
     intercept_ := Arr1 [0%Z] |}.

(** Labels and targets for the four samples. *)
Definition y_binary : list nat := [1; 1; 2; 2].
Definition y_multi : list nat := [1; 2; 3; 3].
Definition targets : list Z := [5; 6; 7; 8]%Z.

(** The three-class classifier after its fit. *)
Definition multi1 : estimator Z nat unit :=
  (_fit_multiclass toy_sgd X4 y_multi multi0).1.2.


Definition step_sgd (a : sgd_args Z unit) : option (list Z * Z) :=
  let w := handed_weights (k_w a) in
  let b := match ravel (k_intercept a) with
           | Arr1 (b :: _) => b
           | _ => 0%Z
           end in
  Some (Z.succ <$> w, Z.succ b).

(** The three-class classifier with a weight other than one for its
    first class. *)
Definition multi_weighted : estimator Z nat unit :=
  {| params := defaults; classes := [1; 2; 3]; class_weight := [5; 2; 3]%Z;
     sample_weight := [1; 1; 1; 1]%Z;
     coef_ := Some (Arr2 2 [[0; 0]; [0; 0]; [0; 0]]%Z);
     sparse_coef_ := Some (csr_matrix (Arr2 2 [[0; 0]; [0; 0]; [0; 0]]%Z));
     intercept_ := Arr1 [0; 0; 0]%Z |}.

(** An estimator whose weights have not been allocated. *)
Definition unallocated : estimator Z nat unit :=
  {| params := defaults; classes := [1; 2]; class_weight := [1; 1]%Z;
     sample_weight := [1; 1; 1; 1]%Z;
     coef_ := None; sparse_coef_ := None; intercept_ := Arr1 [0%Z] |}.


End Sample.

(** Unfolding of the monad operations. *)
Ltac run_m :=
  cbv beta iota zeta delta
    [mbind M_bind mret M_ret raise get put lift index call_plain_sgd
     the_coef write_in_place _set_coef SGDRegressor_set_coef set_intercept];
  simpl.

(** Instantiates the pending argument record with the one the kernel is
    called on in the left-hand side. *)
Ltac pick_args :=
  lazymatch goal with
  | |- ?lhs = _ =>
      lazymatch lhs with
      | context [?f ?r] =>
          lazymatch type of r with
          | sgd_args _ _ => instantiate (1 := r)
          end
      end
  end.

(** ** Facts about the sparse encoding *)

Section SparseFacts.
Context {F : Type} `{Scalar F}.

Lemma offsets_length s lens : length (offsets s lens) = S (length lens).
Proof. revert s. induction lens as [|n ns IH]; intros s; simpl; [done|]. by rewrite IH. Qed.

Lemma offsets_lookup s lens r :
  r ≤ length lens → offsets s lens !! r = Some (s + sum_list (take r lens)).
Proof.
  revert s r. induction lens as [|n ns IH]; intros s r Hr; simpl in *.
  - assert (r = 0) as -> by lia. simpl. f_equal. lia.
  - destruct r as [|r]; simpl.
    + f_equal. lia.
    + rewrite IH; [|lia]. f_equal. lia.
Qed.

Lemma slice_concat {A} (ls : list (list A)) r l :
  ls !! r = Some l →
  take (length l) (drop (sum_list (length <$> take r ls)) (concat ls)) = l.
Proof.
  revert r. induction ls as [|x ls IH]; intros r Hr; [done|].
  destruct r as [|r]; simpl in *.
  - inversion Hr; subst. by rewrite drop_0, take_app_length.
  - rewrite drop_app_add'; [|done]. eauto.
Qed.

Lemma csr_row_of_rows n (rows : list (list F)) r row :
  rows !! r = Some row →
  csr_row (csr_of_rows n rows) r = sparse_row row.
Proof.
  intros Hr. unfold csr_row, csr_of_rows; simpl.
  pose proof (lookup_lt_Some _ _ _ Hr) as Hlt.
  rewrite !offsets_lookup; rewrite ?length_fmap; try lia.
  assert (take (S r) rows = take r rows ++ [row]) as Ht by by apply take_S_r.
  assert ((sparse_row <$> rows) !! r = Some (sparse_row row)) as Hs
    by by rewrite list_lookup_fmap, Hr.
  rewrite <- !fmap_take. rewrite Ht, !fmap_app, !sum_list_with_app. simpl.
  replace (_ + _ - _) with (length (sparse_row row)) by lia.
  rewrite <- !fmap_drop, <- !fmap_take.
  rewrite (fmap_take sparse_row).
  rewrite (slice_concat _ _ _ Hs). apply zip_fst_snd.
Qed.

Lemma sparse_row_snoc (r : list F) x :
  sparse_row (r ++ [x]) =
  sparse_row r ++ (if decide (x = f0) then [] else [(length r, x)]).
Proof.
  unfold sparse_row. rewrite imap_app, filter_app. f_equal.
  simpl. rewrite Nat.add_0_r.
  destruct (decide (x = f0)) as [->|Hx].
  - rewrite filter_cons_False; [done|]. simpl. tauto.
  - by rewrite filter_cons_True.
Qed.

Lemma dense_row_sparse_row_pad (r : list F) k :
  dense_row (length r + k) (sparse_row r) = r ++ replicate k f0.
Proof.
  unfold dense_row. revert k.
  induction r as [|x r IH] using rev_ind; intros k; [done|].
  rewrite sparse_row_snoc, foldl_app, length_app. simpl.
  replace (length r + 1 + k) with (length r + S k) by lia.
  rewrite IH, <- app_assoc. simpl.
  destruct (decide (x = f0)) as [->|Hx]; [done|]. simpl.
  rewrite insert_app_r_alt by lia. by rewrite Nat.sub_diag.
Qed.

Lemma dense_row_sparse_row (r : list F) :
  dense_row (length r) (sparse_row r) = r.
Proof.
  pose proof (dense_row_sparse_row_pad r 0) as E.
  by rewrite Nat.add_0_r, app_nil_r in E.
Qed.

Lemma todense_csr_of_rows n (rows : list (list F)) :
  Forall (λ r, length r = n) rows →
  todense (csr_of_rows n rows) = Arr2 n rows.
Proof.
  intros Hwf. unfold todense. cbn [n_cols n_rows csr_of_rows]. f_equal.
  apply list_eq. intros i. rewrite list_lookup_fmap.
  destruct (rows !! i) as [row|] eqn:Hi.
  - rewrite lookup_seq_lt by (by eapply lookup_lt_Some). simpl.
    rewrite (csr_row_of_rows _ _ _ _ Hi).
    rewrite <- (Forall_lookup_1 _ _ _ _ Hwf Hi). by rewrite dense_row_sparse_row.
  - rewrite lookup_seq_ge; [done|]. by apply lookup_ge_None.
Qed.

(** Densifying the sparse encoding of a dense array gives the array back,
    viewed in two dimensions. *)
Lemma todense_csr_matrix (a : ndarray F) :
  wf_ndarray a → todense (csr_matrix a) = atleast_2d a.
Proof.
  destruct a as [x|v|n rows]; simpl; intros Hwf;
    apply todense_csr_of_rows; auto.
Qed.

Lemma fmap_seq_eq {A B} (l : list A) (f : nat → B) (g : A → B) :
  (∀ i x, l !! i = Some x → f i = g x) →
  f <$> seq 0 (length l) = g <$> l.
Proof.
  intros Hfg. apply list_eq. intros i. rewrite !list_lookup_fmap.
  destruct (l !! i) as [x|] eqn:Hi.
  - rewrite lookup_seq_lt by (by eapply lookup_lt_Some). simpl. f_equal. eauto.
  - rewrite lookup_seq_ge; [done|]. by apply lookup_ge_None.
Qed.

(** The entries of a sparse row in column [j]: the entry of the dense
    row when it is not zero. *)
Lemma column_fold_sparse_row (w : list F) j v acc :
  foldl (λ acc' e, if decide (e.1 = j) then fadd acc' (fmul v e.2) else acc')
        acc (sparse_row w)
  = match w !! j with
    | Some x => if decide (x = f0) then acc else fadd acc (fmul v x)
    | None => acc
    end.
Proof.
  induction w as [|a w IH] using rev_ind; [done|].
  rewrite sparse_row_snoc, foldl_app, IH.
  destruct (decide (j < length w)) as [Hlt|Hge].
  - rewrite lookup_app_l by done.
    destruct (decide (a = f0)); [done|]. simpl.
    rewrite decide_False by lia. done.
  - rewrite (lookup_ge_None_2 w j) by lia.
    destruct (decide (j = length w)) as [->|Hne].
    + rewrite list_lookup_middle by done.
      destruct (decide (a = f0)); [done|]. simpl. by rewrite decide_True.
    + rewrite lookup_ge_None_2 by (rewrite length_app; simpl; lia).
      destruct (decide (a = f0)); [done|]. simpl.
      rewrite decide_False by lia. done.
Qed.

(** A sparse row times the sparse encoding of a weight row. *)
Lemma row_dot_sparse_row (xs : list (nat * F)) (w : list F) :
  row_dot xs (sparse_row w) = sdot xs w.
Proof.
  unfold row_dot, sdot.
  assert (∀ acc,
    foldl (λ acc x,
             foldl (λ acc' e, if decide (e.1 = x.1)
                              then fadd acc' (fmul x.2 e.2) else acc')
                   acc (sparse_row w)) acc xs
    = foldl (λ acc e,
               match w !! e.1 with
               | Some x => if decide (x = f0) then acc else fadd acc (fmul e.2 x)
               | None => acc
               end) acc xs)
    as Hgen; [|apply Hgen].
  induction xs as [|[j v] xs IH]; intros acc; [done|].
  simpl. by rewrite column_fold_sparse_row, <- IH.
Qed.

(** Where every entry times zero is zero and adding zero changes nothing,
    the zero weights may as well be counted. *)
Lemma sdot_sdot_plain (xs : list (nat * F)) (w : list F) :
  Forall (λ e, fmul e.2 f0 = f0) xs → (∀ a, fadd a f0 = a) →
  sdot xs w = sdot_plain xs w.
Proof.
  intros Hmul Hadd. unfold sdot, sdot_plain.
  assert (∀ acc,
    foldl (λ acc e,
             match w !! e.1 with
             | Some x => if decide (x = f0) then acc else fadd acc (fmul e.2 x)
             | None => acc
             end) acc xs
    = foldl (λ acc e, fadd acc (fmul e.2 (default f0 (w !! e.1)))) acc xs)
    as Hgen; [|apply Hgen].
  induction Hmul as [|[j v] xs Hv _ IH]; intros acc; [done|].
  simpl in *. rewrite <- IH. f_equal.
  destruct (w !! j) as [x|]; simpl.
  - destruct (decide (x = f0)) as [->|]; [|done]. by rewrite Hv, Hadd.
  - by rewrite Hv, Hadd.
Qed.

(** For a dense row the sum over its stored entries is the dot product,
    where in addition zero times every weight is zero. *)
Lemma sdot_plain_sparse_row (x w : list F) :
  Forall (λ b, fmul f0 b = f0) w → (∀ a, fadd a f0 = a) →
  length x = length w →
  sdot_plain (sparse_row x) w = dense_dot x w.
Proof.
  intros Hmul Hadd. unfold sdot_plain, dense_dot, sparse_row.
  assert (∀ (pre : list F) acc,
    length x = length w →
    foldl (λ acc e, fadd acc (fmul e.2 (default f0 ((pre ++ w) !! e.1)))) acc
          (filter (λ p, p.2 ≠ f0) (imap (λ i v, (length pre + i, v)) x))
    = foldl (λ acc p, fadd acc (fmul p.1 p.2)) acc (zip x w)) as Hgen.
  { revert w Hmul. induction x as [|a x IH]; intros w Hmul pre acc Hlen.
    - by destruct w.
    - destruct w as [|b w]; [done|]. simpl in Hlen.
      apply Forall_cons in Hmul as [Hb Hmul].
      rewrite imap_cons. simpl.
      assert (imap ((λ i v, (length pre + i, v)) ∘ S) x
              = imap (λ i v, (length (pre ++ [b]) + i, v)) x) as ->.
      { apply imap_ext. intros i v _. simpl. rewrite length_app. simpl.
        f_equal. lia. }
      specialize (IH w Hmul (pre ++ [b])). rewrite <- app_assoc in IH.
      simpl in IH.
      destruct (decide (a = f0)) as [->|Ha].
      + rewrite filter_cons_False by (simpl; tauto).
        rewrite IH by lia. by rewrite Hb, Hadd.
      + rewrite filter_cons_True by done. simpl.
        rewrite IH by lia. do 3 f_equal.
        rewrite Nat.add_0_r, lookup_app_r by lia.
        by rewrite Nat.sub_diag. }
  intros Hlen. apply (Hgen [] f0 Hlen).
Qed.

(** The stored entries of a dense row are entries of the row. *)
Lemma sparse_row_Forall (P : F → Prop) (r : list F) :
  Forall P r → Forall (λ e, P e.2) (sparse_row r).
Proof.
  intros Hr. apply Forall_forall. intros [j x] Hin. unfold sparse_row in Hin.
  apply list_elem_of_filter in Hin as [_ Hin].
  apply elem_of_lookup_imap in Hin as (i & z & Heq & Hi). inversion Heq; subst.
  simpl. by apply (Forall_lookup_1 _ _ _ _ Hr Hi).
Qed.

(** The stored entries of a dense feature matrix. *)
Lemma stored_rows_dense n (rows : list (list F)) :
  stored_rows (Dense (Arr2 n rows)) = sparse_row <$> rows.
Proof.
  unfold stored_rows. simpl. apply fmap_seq_eq.
  intros i r Hi. by apply csr_row_of_rows.
Qed.

(** *** Writing into a buffer *)

Lemma overwrite_length (l vs : list F) : length (overwrite l vs) = length l.
Proof. unfold overwrite. rewrite length_app, length_take, length_drop. lia. Qed.

Lemma overwrite_all (l vs : list F) :
  length vs = length l → overwrite l vs = vs.
Proof.
  intros Hl. unfold overwrite.
  rewrite take_ge by lia. rewrite drop_ge by lia. by rewrite app_nil_r.
Qed.

(** Writing into an array keeps its shape. *)
Lemma refill_wf (a : ndarray F) vs : wf_ndarray a → wf_ndarray (refill a vs).
Proof.
  destruct a as [x|v|n rows]; simpl; [done|done|]. intros Hwf.
  apply Forall_lookup. intros i r Hi. rewrite list_lookup_imap in Hi.
  destruct (rows !! i) as [r0|] eqn:Hr; [|done]. simpl in Hi.
  inversion Hi; subst. rewrite overwrite_length.
  by apply (Forall_lookup_1 _ _ _ _ Hwf Hr).
Qed.

Lemma refill_is_1d (a : ndarray F) vs : is_1d (refill a vs) = is_1d a.
Proof. by destruct a. Qed.

(** For one weight vector [w], held flat or as a matrix with one row,
    and as many values as it has entries, the array holds the values
    after the write. *)
Lemma atleast_2d_refill (a : ndarray F) w vs :
  atleast_2d a = Arr2 (length w) [w] →
  length vs = length w →
  atleast_2d (refill a vs) = Arr2 (length w) [vs].
Proof.
  intros Ha Hl. destruct a as [x|v|n rows]; simpl in *.
  - inversion Ha as [[Hn Hw]]. subst w. destruct vs as [|z [|??]]; done.
  - inversion Ha as [[Hn Hw]]. subst v.
    by rewrite overwrite_length, overwrite_all.
  - inversion Ha; subst. simpl. rewrite drop_0. by rewrite overwrite_all.
Qed.

(** *** Broadcasting *)

Lemma bc_dim_1_r a : bc_dim a 1 = Some a.
Proof.
  unfold bc_dim. destruct (decide (a = 1)) as [->|]; [done|].
  by rewrite decide_True.
Qed.

Lemma bc_dim_refl a : bc_dim a a = Some a.
Proof. unfold bc_dim. by rewrite decide_True. Qed.

Lemma bc_idx_lt e i : i < e → bc_idx e i = i.
Proof. intros Hlt. unfold bc_idx. destruct (decide (e = 1)); lia. Qed.

Lemma add_broadcast_vector (P : list (list F)) K (bv : list F) :
  Forall (λ r, length r = K) P → length bv = K →
  add_broadcast (Arr2 K P) (Arr1 bv)
  = Ok (Arr2 K ((λ r, zip_with fadd r bv) <$> P)).
Proof.
  intros HP Hb. unfold add_broadcast. simpl.
  rewrite bc_dim_1_r, Hb, bc_dim_refl. do 2 f_equal.
  apply fmap_seq_eq. intros i r Hi.
  pose proof (Forall_lookup_1 _ _ _ _ HP Hi) as Hr. simpl in Hr.
  rewrite (bc_idx_lt (length P) i) by by eapply lookup_lt_Some.
  assert (K = length (zip r bv)) as HK by (rewrite length_zip; lia).
  rewrite (zip_with_zip fadd r bv).
  replace (seq 0 K) with (seq 0 (length (zip r bv))) by (by rewrite <- HK).
  apply fmap_seq_eq. intros j [x z] Hj.
  apply lookup_zip_Some in Hj as [Hx Hz]. simpl in Hx, Hz.
  rewrite bc_idx_lt by (apply lookup_lt_Some in Hx; lia).
  simpl. by rewrite Hi, Hz; simpl; rewrite Hx.
Qed.

Lemma add_broadcast_scalar (P : list (list F)) (b0 : F) :
  Forall (λ r, length r = 1) P →
  add_broadcast (Arr2 1 P) (Arr0 b0)
  = Ok (Arr2 1 ((λ r : list F, (λ x, fadd x b0) <$> r) <$> P)).
Proof.
  intros HP. unfold add_broadcast. simpl.
  rewrite !bc_dim_1_r. do 2 f_equal.
  apply fmap_seq_eq. intros i r Hi.
  pose proof (Forall_lookup_1 _ _ _ _ HP Hi) as Hr. simpl in Hr.
  rewrite (bc_idx_lt (length P) i) by by eapply lookup_lt_Some.
  destruct r as [|x [|??]]; try done. simpl. by rewrite Hi.
Qed.

Lemma concat_singletons_length {A} (l : list (list A)) :
  Forall (λ r, length r = 1) l → length (concat l) = length l.
Proof.
  induction 1 as [|r l Hr _ IH]; [done|].
  simpl. rewrite length_app. lia.
Qed.

(** *** The product of a sparse matrix with a sparse weight matrix *)

Lemma dot_T_todense_csr_of_rows (X : csr F) n (W : list (list F)) :
  n_cols X = n →
  dot_T_todense X (csr_of_rows n W)
  = Ok (Arr2 (length W)
          ((λ xs, sdot xs <$> W) <$> (csr_row X <$> seq 0 (n_rows X)))).
Proof.
  intros Hn. unfold dot_T_todense. simpl.
  rewrite decide_True by done. do 2 f_equal.
  rewrite <- list_fmap_compose. apply list_fmap_ext. intros _ s _. simpl.
  apply fmap_seq_eq. intros c w Hc.
  rewrite (csr_row_of_rows _ _ _ _ Hc). by apply row_dot_sparse_row.
Qed.

End SparseFacts.


(** ** Facts about the estimators *)

Section EstimatorFacts.
Context {F : Type} `{Scalar F} {L : Type} `{EqDecision L} {Loss : Type}.
Context (plain_sgd : sgd_args F Loss → option (list F * F)).


(** *** Binary fit *)

(** What [_fit_binary] does once the class list and the two class
    weights are there: one kernel call on [self.coef_]; when the kernel
    returns, the array it has updated is viewed in two dimensions and
    stored again. *)
Lemma fit_binary_run X y (st : estimator F L Loss) c1 cw1 cw0 :
  classes st !! 1 = Some c1 →
  class_weight st !! 1 = Some cw1 →
  class_weight st !! 0 = Some cw0 →
  ∃ args,
    k_w args = coef_ st ∧ k_intercept args = intercept_ st ∧
    k_Y args = mask_assign (neg_ones y) (eq_mask y c1) f1 ∧
    k_weight_pos args = cw1 ∧ k_weight_neg args = cw0 ∧
    _fit_binary plain_sgd X y st =
      match plain_sgd args with
      | Some (coef, b) =>
          match coef_ st with
          | Some a =>
              (Ok (),
               with_intercept
                 (with_coef st (Some (atleast_2d (refill a coef)))
                    (Some (csr_matrix (atleast_2d (refill a coef))))) (Arr0 b),
               [args])
          | None => (Raise Unmodelled, st, [args])
          end
      | None => (Raise KernelError, st, [args])
      end.
Proof.
  intros Hc H1 H0. eexists. repeat split; cycle -1.
  - unfold _fit_binary. run_m. rewrite Hc. simpl. rewrite H1. simpl.
    rewrite H0. simpl.
    pick_args. destruct (plain_sgd _) as [[coef b]|]; simpl; [|reflexivity].
    destruct (coef_ st) as [a|] eqn:Hw; simpl; rewrite ?Hw; reflexivity.
  - reflexivity.
  - reflexivity.
  - reflexivity.
  - reflexivity.
  - reflexivity.
Qed.

(** Without one of them the call fails before the kernel is reached. *)
Lemma fit_binary_cases X y (st : estimator F L Loss) :
  (∃ e, _fit_binary plain_sgd X y st = (Raise e, st, [])) ∨
  (∃ c1 cw1 cw0,
      classes st !! 1 = Some c1 ∧
      class_weight st !! 1 = Some cw1 ∧ class_weight st !! 0 = Some cw0).
Proof.
  destruct (classes st !! 1) as [c1|] eqn:Hc; cycle 1.
  { left. eexists. unfold _fit_binary. run_m. by rewrite Hc. }
  destruct (class_weight st !! 1) as [cw1|] eqn:H1; cycle 1.
  { left. eexists. unfold _fit_binary. run_m. rewrite Hc. simpl. by rewrite H1. }
  destruct (class_weight st !! 0) as [cw0|] eqn:H0; cycle 1.
  { left. eexists. unfold _fit_binary. run_m. rewrite Hc. simpl. rewrite H1.
    simpl. by rewrite H0. }
  right. by exists c1, cw1, cw0.
Qed.

(** *** Regressor fit *)

(** One kernel call on [self.coef_]; when the kernel returns, the array
    it has updated is stored again, as it is. *)
Lemma fit_regressor_run X y (st : estimator F L Loss) :
  ∃ args,
    k_w args = coef_ st ∧ k_intercept args = intercept_ st ∧
    k_Y args = y ∧ k_weight_pos args = f1 ∧ k_weight_neg args = f1 ∧
    _fit_regressor plain_sgd X y st =
      match plain_sgd args with
      | Some (coef, b) =>
          (Ok (),
           with_intercept
             (with_coef st (flip refill coef <$> coef_ st)
                (csr_matrix <$> (flip refill coef <$> coef_ st))) (Arr0 b),
           [args])
      | None => (Raise KernelError, st, [args])
      end.
Proof.
  eexists. repeat split; cycle -1.
  - unfold _fit_regressor. run_m.
    pick_args. destruct (plain_sgd _) as [[coef b]|]; simpl; [|reflexivity].
    destruct (coef_ st) as [a|] eqn:Hw; simpl; rewrite ?Hw; reflexivity.
  - reflexivity.
  - reflexivity.
  - reflexivity.
  - reflexivity.
  - reflexivity.
Qed.

(** *** One-vs-all tasks *)

Lemma ova_task_run Xd Xi Xp y i c (st : estimator F L Loss) W w b cw :
  coef_ st = Some W →
  getitem W i = Ok w →
  getitem (intercept_ st) i = Ok b →
  class_weight st !! i = Some cw →
  ∃ args,
    is_ova_call st y i c args ∧
    ova_task plain_sgd Xd Xi Xp y (i, c) st =
      (match plain_sgd args with
       | Some (coef, b') => Ok (i, coef, b')
       | None => Raise KernelError
       end, st, [args]).
Proof.
  intros HW Hw Hb Hcw. eexists. split; cycle 1.
  - unfold ova_task, _train_ova_classifier. run_m.
    rewrite HW. simpl. rewrite Hw. simpl. rewrite Hb. simpl. rewrite Hcw. simpl.
    pick_args. destruct (plain_sgd _) as [[coef b']|]; reflexivity.
  - exists W. simpl. split; [done|]. split; [by exists w|]. by rewrite Hb.
Qed.

Lemma ova_task_cases Xd Xi Xp y i c (st : estimator F L Loss) :
  (∃ e, ova_task plain_sgd Xd Xi Xp y (i, c) st = (Raise e, st, [])) ∨
  (∃ W w b cw,
      coef_ st = Some W ∧ getitem W i = Ok w ∧
      getitem (intercept_ st) i = Ok b ∧ class_weight st !! i = Some cw).
Proof.
  destruct (coef_ st) as [W|] eqn:HW; cycle 1.
  { left. eexists. unfold ova_task. run_m. by rewrite HW. }
  destruct (getitem W i) as [w|e] eqn:Hw; cycle 1.
  { left. eexists. unfold ova_task. run_m. rewrite HW. simpl. by rewrite Hw. }
  destruct (getitem (intercept_ st) i) as [b|e] eqn:Hb; cycle 1.
  { left. eexists. unfold ova_task. run_m. rewrite HW. simpl. rewrite Hw. simpl.
    by rewrite Hb. }
  destruct (class_weight st !! i) as [cw|] eqn:Hcw; cycle 1.
  { left. eexists. unfold ova_task. run_m. rewrite HW. simpl. rewrite Hw. simpl.
    rewrite Hb. simpl. by rewrite Hcw. }
  right. by exists W, w, b, cw.
Qed.

(** A task reads the estimator and leaves it as it is; it makes at most
    one kernel call, with the arguments of its class. *)
Lemma ova_task_inv Xd Xi Xp y i c (st : estimator F L Loss) r st' calls :
  ova_task plain_sgd Xd Xi Xp y (i, c) st = (r, st', calls) →
  st' = st ∧
  (calls = [] ∧ (∃ e, r = Raise e) ∨
   ∃ args, calls = [args] ∧ is_ova_call st y i c args ∧
     r = match plain_sgd args with
         | Some (coef, b') => Ok (i, coef, b')
         | None => Raise KernelError
         end).
Proof.
  intros Hrun.
  destruct (ova_task_cases Xd Xi Xp y i c st) as [[e He]|(W & w & b & cw & HW & Hw & Hb & Hcw)].
  - rewrite He in Hrun. inversion Hrun; subst. split; [done|]. left. eauto.
  - destruct (ova_task_run Xd Xi Xp y i c st W w b cw HW Hw Hb Hcw) as (args & Hcall & E).
    rewrite E in Hrun. inversion Hrun; subst. split; [done|]. right. eauto.
Qed.

(** *** Loops *)

Lemma for_each_cons {A B} (f : A → M F L Loss B) a l (st : estimator F L Loss) :
  for_each f (a :: l) st =
    match f a st with
    | (Ok b, st1, c1) =>
        match for_each f l st1 with
        | (Ok bs, st2, c2) => (Ok (b :: bs), st2, c1 ++ c2)
        | (Raise e, st2, c2) => (Raise e, st2, c1 ++ c2)
        end
    | (Raise e, st1, c1) => (Raise e, st1, c1)
    end.
Proof.
  simpl. run_m. destruct (f a st) as [[[b|e] st1] c1]; [|done].
  destruct (for_each f l st1) as [[[bs|e] st2] c2]; [|done].
  by rewrite app_nil_r.
Qed.

(** The dispatch of the one-vs-all tasks: the estimator is not touched,
    the [k]-th recorded call is the call of the [k]-th task, and when all
    tasks return, the [k]-th result is what the kernel returned for it. *)
Lemma dispatch_inv Xd Xi Xp y l (st : estimator F L Loss) r st' calls :
  for_each (ova_task plain_sgd Xd Xi Xp y) l st = (r, st', calls) →
  st' = st ∧
  (∀ k args, calls !! k = Some args →
     ∃ i c, l !! k = Some (i, c) ∧ is_ova_call st y i c args) ∧
  (∀ res, r = Ok res →
     length calls = length l ∧
     ∀ k i c, l !! k = Some (i, c) →
       ∃ args coef b, calls !! k = Some args ∧ res !! k = Some (i, coef, b) ∧
                      plain_sgd args = Some (coef, b)).
Proof.
  revert r st' calls. induction l as [|[i c] l IH]; intros r st' calls Hrun.
  - simpl in Hrun. run_m. inversion Hrun; subst. repeat split; try done.
  - rewrite for_each_cons in Hrun.
    destruct (ova_task _ _ _ _ _ (i, c) st) as [[r1 st1] c1] eqn:E1.
    apply ova_task_inv in E1 as [-> Hhead].
    destruct Hhead as [[-> [e ->]]|(args & -> & Hcall & ->)].
    { inversion Hrun; subst. repeat split; try done. }
    destruct (plain_sgd args) as [[coef b]|] eqn:Hk; cycle 1.
    { inversion Hrun; subst. repeat split; try done.
      intros [|k] a Ha; simpl in Ha; [|done]. inversion Ha; subst. eauto. }
    destruct (for_each _ l st) as [[r2 st2] c2] eqn:E2.
    destruct (IH _ _ _ eq_refl) as (-> & Hcalls & Hres).
    assert (Hall : ∀ k a, (args :: c2) !! k = Some a →
              ∃ i0 c0, ((i, c) :: l) !! k = Some (i0, c0) ∧ is_ova_call st y i0 c0 a).
    { intros [|k] a Ha; simpl in Ha.
      - inversion Ha; subst. eauto.
      - by apply Hcalls. }
    destruct r2 as [bs|e]; inversion Hrun; subst; (split; [done|]); (split; [done|]).
    + intros res Hr. inversion Hr; subst.
      destruct (Hres bs eq_refl) as [Hlen Hk']. split; [simpl; by rewrite Hlen|].
      intros [|k] i0 c0 Hl; simpl in Hl.
      * inversion Hl; subst. by exists args, coef, b.
      * exact (Hk' k i0 c0 Hl).
    + done.
Qed.


(** With a kernel that always returns, the dispatch returns whenever the
    arguments of every task can be read. *)
Lemma dispatch_succeeds Xd Xi Xp y l (st : estimator F L Loss) n rows v :
  (∀ a, is_Some (plain_sgd a)) →
  coef_ st = Some (Arr2 n rows) →
  intercept_ st = Arr1 v →
  Forall (λ ic : nat * L, ic.1 < length rows ∧ ic.1 < length v ∧
                         ic.1 < length (class_weight st)) l →
  ∃ res calls,
    for_each (ova_task plain_sgd Xd Xi Xp y) l st = (Ok res, st, calls).
Proof.
  intros Htotal HW Hb. induction 1 as [|[i c] l (Hr & Hv & Hcw) _ IH].
  { by exists [], []. }
  simpl in Hr, Hv, Hcw.
  destruct (lookup_lt_is_Some_2 rows i Hr) as [w Hw].
  destruct (lookup_lt_is_Some_2 v i Hv) as [b Hbi].
  destruct (lookup_lt_is_Some_2 _ i Hcw) as [cw Hcwi].
  destruct (ova_task_run Xd Xi Xp y i c st (Arr2 n rows) (Arr1 w)
              (Arr0 b) cw HW) as (args & _ & E).
  { simpl. by rewrite Hw. }
  { rewrite Hb. simpl. by rewrite Hbi. }
  { done. }
  destruct (Htotal args) as [[coef b'] Hk]. rewrite Hk in E.
  destruct IH as (res & calls & IH).
  rewrite for_each_cons, E, IH. eauto.
Qed.

(** *** Write-back of the one-vs-all results *)

Lemma setitem_vec_swap (W : ndarray F) i v j u W1 W2 :
  i ≠ j →
  setitem_vec W i v = Ok W1 → setitem_vec W1 j u = Ok W2 →
  ∃ W1', setitem_vec W j u = Ok W1' ∧ setitem_vec W1' i v = Ok W2.
Proof.
  intros Hij H1 H2. destruct W as [x|w|n rows]; simpl in *; [done| |].
  - destruct (decide (i < length w)); [|done].
    destruct v as [|x [|? ?]]; try done. inversion H1; subst; clear H1.
    simpl in H2. rewrite length_insert in H2.
    destruct (decide (j < length w)); [|done].
    destruct u as [|z [|? ?]]; try done. inversion H2; subst; clear H2.
    eexists. split; [done|]. simpl. rewrite length_insert.
    rewrite decide_True by done. by rewrite list_insert_insert_ne.
  - destruct (decide (i < length rows)); [|done].
    assert (∃ v', W1 = Arr2 n (<[i := v']> rows) ∧
              ∀ rows', length rows' = length rows →
                setitem_vec (Arr2 n rows') i v = Ok (Arr2 n (<[i := v']> rows')))
      as (v' & -> & Hv).
    { destruct (decide (length v = n)) as [Hn|Hn].
      - inversion H1; subst. eexists. split; [done|]. intros rows' Hl. simpl.
        rewrite Hl. rewrite decide_True by done. by rewrite decide_True.
      - destruct v as [|x [|? ?]]; try done. inversion H1; subst.
        eexists. split; [done|]. intros rows' Hl. simpl.
        rewrite Hl. rewrite decide_True by done. by rewrite decide_False. }
    simpl in H2. rewrite length_insert in H2.
    destruct (decide (j < length rows)); [|done].
    assert (∃ u', W2 = Arr2 n (<[j := u']> (<[i := v']> rows)) ∧
              setitem_vec (Arr2 n rows) j u = Ok (Arr2 n (<[j := u']> rows)))
      as (u' & -> & Hu).
    { simpl. rewrite decide_True by done.
      destruct (decide (length u = n)) as [Hn|Hn].
      - inversion H2; subst. eauto.
      - destruct u as [|x [|? ?]]; try done. inversion H2; subst. eauto. }
    eexists. split.
    { simpl in Hu. rewrite decide_True in Hu by done. exact Hu. }
    rewrite Hv by by rewrite length_insert. by rewrite list_insert_insert_ne.
Qed.

Lemma setitem_scalar_swap (a : ndarray F) i x j z a1 a2 :
  i ≠ j →
  setitem_scalar a i x = Ok a1 → setitem_scalar a1 j z = Ok a2 →
  ∃ a1', setitem_scalar a j z = Ok a1' ∧ setitem_scalar a1' i x = Ok a2.
Proof.
  intros Hij H1 H2. destruct a as [?|w|n rows]; simpl in *; [done| |].
  - destruct (decide (i < length w)); [|done]. inversion H1; subst; clear H1.
    simpl in H2. rewrite length_insert in H2.
    destruct (decide (j < length w)); [|done]. inversion H2; subst; clear H2.
    eexists. split; [done|]. simpl. rewrite length_insert.
    rewrite decide_True by done. by rewrite list_insert_insert_ne.
  - destruct (decide (i < length rows)); [|done]. inversion H1; subst; clear H1.
    simpl in H2. rewrite length_insert in H2.
    destruct (decide (j < length rows)); [|done]. inversion H2; subst; clear H2.
    eexists. split; [done|]. simpl. rewrite length_insert.
    rewrite decide_True by done. by rewrite list_insert_insert_ne.
Qed.

Lemma write_back_run i coef b (st : estimator F L Loss) :
  write_back (i, coef, b) st =
    match coef_ st with
    | None => (Raise TypeError, st, [])
    | Some W =>
        match setitem_vec W i coef with
        | Raise e => (Raise e, st, [])
        | Ok W' =>
            match setitem_scalar (intercept_ st) i b with
            | Raise e => (Raise e, with_coef st (Some W') (sparse_coef_ st), [])
            | Ok b' =>
                (Ok (),
                 with_intercept (with_coef st (Some W') (sparse_coef_ st)) b',
                 [])
            end
        end
    end.
Proof.
  unfold write_back. run_m. destruct (coef_ st) as [W|]; [|done]. simpl.
  destruct (setitem_vec W i coef) as [W'|e]; [|done]. simpl.
  destruct (setitem_scalar (intercept_ st) i b) as [b'|e]; done.
Qed.

Lemma write_back_ok i coef b (st st1 : estimator F L Loss) u cs :
  write_back (i, coef, b) st = (Ok u, st1, cs) →
  cs = [] ∧
  ∃ W W' b', coef_ st = Some W ∧ setitem_vec W i coef = Ok W' ∧
             setitem_scalar (intercept_ st) i b = Ok b' ∧
             st1 = with_intercept (with_coef st (Some W') (sparse_coef_ st)) b'.
Proof.
  rewrite write_back_run. destruct (coef_ st) as [W|] eqn:HW; [|done].
  destruct (setitem_vec W i coef) as [W'|e] eqn:HW'; [|done].
  destruct (setitem_scalar (intercept_ st) i b) as [b'|e] eqn:Hb; [|done].
  intros E. inversion E; subst. split; [done|]. by exists W, W', b'.
Qed.

(** Two write-backs at different class indices commute. *)
Lemma write_back_swap r1 r2 (st st1 st2 : estimator F L Loss) u1 u2 cs1 cs2 :
  r1.1.1 ≠ r2.1.1 →
  write_back r1 st = (Ok u1, st1, cs1) →
  write_back r2 st1 = (Ok u2, st2, cs2) →
  ∃ st1', write_back r2 st = (Ok (), st1', []) ∧
          write_back r1 st1' = (Ok (), st2, []).
Proof.
  destruct r1 as [[i v] x], r2 as [[j u] z]. intros Hij H1 H2. simpl in Hij.
  apply write_back_ok in H1 as (-> & W & W1 & b1 & HW & HW1 & Hb1 & ->).
  apply write_back_ok in H2 as (-> & W1' & W2 & b2 & HW' & HW2 & Hb2 & ->).
  simpl in HW', HW2, Hb2. inversion HW'; subst W1'; clear HW'.
  destruct (setitem_vec_swap _ _ _ _ _ _ _ Hij HW1 HW2) as (Wm & HWm & HWm').
  destruct (setitem_scalar_swap _ _ _ _ _ _ _ Hij Hb1 Hb2) as (bm & Hbm & Hbm').
  eexists. split.
  - rewrite write_back_run. by rewrite HW, HWm, Hbm.
  - rewrite write_back_run. simpl. by rewrite HWm', Hbm'.
Qed.

(** The write-back loop gives the same final estimator for every order
    of results with pairwise different class indices. *)
Lemma write_backs_perm res res' :
  res ≡ₚ res' →
  NoDup (res.*1.*1) →
  ∀ (st st' : estimator F L Loss) us cs,
    for_each write_back res st = (Ok us, st', cs) →
    ∃ us', for_each write_back res' st = (Ok us', st', []).
Proof.
  induction 1 as [|r l l' Hp IH|r1 r2 l|l1 l2 l3 Hp1 IH1 Hp2 IH2];
    intros Hnd st st' us cs Hrun.
  - simpl in Hrun. run_m. inversion Hrun; subst. by exists [].
  - rewrite for_each_cons in Hrun. rewrite for_each_cons.
    destruct (write_back r st) as [[[u|e] st1] c1] eqn:E1; [|done].
    destruct r as [[i v] x].
    pose proof E1 as E1'. apply write_back_ok in E1' as [-> _].
    destruct (for_each _ l st1) as [[[bs|e] st2] c2] eqn:E2; [|done].
    inversion Hrun; subst.
    simpl in Hnd. apply NoDup_cons in Hnd as [_ Hnd].
    destruct (IH Hnd _ _ _ _ E2) as [us' ->]. eauto.
  - rewrite for_each_cons in Hrun.
    destruct (write_back r2 st) as [[[u2|e] st1] c2] eqn:E2; [|done].
    rewrite for_each_cons in Hrun.
    destruct (write_back r1 st1) as [[[u1|e] st2] c1] eqn:E1; [|done].
    destruct (for_each _ l st2) as [[[bs|e] st3] c3] eqn:E3; [|done].
    inversion Hrun; subst.
    assert (r2.1.1 ≠ r1.1.1) as Hne.
    { simpl in Hnd. apply NoDup_cons in Hnd as [Hnin _].
      intros Heq. apply Hnin. rewrite Heq. left. }
    destruct (write_back_swap _ _ _ _ _ _ _ _ _ Hne E2 E1) as (sm & Hx & Hy).
    rewrite for_each_cons, Hx, for_each_cons, Hy, E3. simpl.
    assert (c3 = []) as ->; [|eauto].
    clear -E3. revert st2 bs st' c3 E3.
    induction l as [|[[i v] x] l IHl]; intros st2 bs st' c3 E3.
    + simpl in E3. run_m. by inversion E3.
    + rewrite for_each_cons in E3.
      destruct (write_back _ st2) as [[[u|e] sa] ca] eqn:Ea; [|done].
      apply write_back_ok in Ea as [-> _].
      destruct (for_each _ l sa) as [[[bs'|e] sb] cb] eqn:Eb; [|done].
      inversion E3; subst. eauto.
  - destruct (IH1 Hnd _ _ _ _ Hrun) as [us1 H1].
    apply (IH2 (ltac:(by rewrite <- Hp1)) _ _ _ _ H1).
Qed.

(** *** Multiclass fit *)

Lemma with_intercept_id (st : estimator F L Loss) : with_intercept st (intercept_ st) = st.
Proof. by destruct st. Qed.

Lemma fit_multiclass_reordered_run reorder X y (st : estimator F L Loss) :
  _fit_multiclass_reordered plain_sgd reorder X y st =
    match for_each (ova_task plain_sgd (data (as_csr X)) (indices (as_csr X))
                      (indptr (as_csr X)) y) (enumerate (classes st)) st with
    | (Raise e, st1, cs) => (Raise e, st1, cs)
    | (Ok res, st1, cs) =>
        match for_each write_back (reorder res) st1 with
        | (Raise e, st2, cs2) => (Raise e, st2, cs ++ cs2)
        | (Ok _, st2, cs2) =>
            (Ok (), with_coef st2 (coef_ st2) (csr_matrix <$> coef_ st2), cs ++ cs2)
        end
    end.
Proof.
  unfold _fit_multiclass_reordered, Parallel. run_m.
  destruct (for_each _ (enumerate (classes st)) st) as [[[res|e] st1] cs]; [|done].
  destruct (for_each write_back (reorder res) st1) as [[[us|e] st2] cs2]; [|done].
  simpl. by rewrite !app_nil_r.
Qed.

Lemma fit_multiclass_reordered_id X y (st : estimator F L Loss) :
  _fit_multiclass plain_sgd X y st = _fit_multiclass_reordered plain_sgd id X y st.
Proof. reflexivity. Qed.

Lemma fit_multiclass_run X y (st : estimator F L Loss) :
  _fit_multiclass plain_sgd X y st =
    match for_each (ova_task plain_sgd (data (as_csr X)) (indices (as_csr X))
                      (indptr (as_csr X)) y) (enumerate (classes st)) st with
    | (Raise e, st1, cs) => (Raise e, st1, cs)
    | (Ok res, st1, cs) =>
        match for_each write_back res st1 with
        | (Raise e, st2, cs2) => (Raise e, st2, cs ++ cs2)
        | (Ok _, st2, cs2) =>
            (Ok (), with_coef st2 (coef_ st2) (csr_matrix <$> coef_ st2), cs ++ cs2)
        end
    end.
Proof. rewrite fit_multiclass_reordered_id. apply fit_multiclass_reordered_run. Qed.

Lemma write_backs_calls res (st st' : estimator F L Loss) r cs :
  for_each write_back res st = (r, st', cs) → cs = [].
Proof.
  revert st r st' cs. induction res as [|[[i v] x] res IH]; intros st r st' cs E.
  - simpl in E. run_m. by inversion E.
  - rewrite for_each_cons, write_back_run in E.
    destruct (coef_ st) as [W|]; [|by inversion E].
    destruct (setitem_vec W i v) as [W'|e]; [|by inversion E].
    destruct (setitem_scalar (intercept_ st) i x) as [b'|e]; [|by inversion E].
    destruct (for_each write_back res _) as [[[bs|e] st2] c2] eqn:E2;
      apply IH in E2 as ->; by inversion E.
Qed.

Lemma enumerate_lookup {A} (l : list A) k i (c : A) :
  enumerate l !! k = Some (i, c) ↔ i = k ∧ l !! k = Some c.
Proof.
  unfold enumerate. rewrite list_lookup_imap.
  destruct (l !! k) as [a|]; simpl; split.
  - intros E. by inversion E.
  - intros [-> E]. by inversion E.
  - done.
  - by intros [_ ?].
Qed.

Lemma enumerate_fst {A} (l : list A) : (enumerate l).*1 = seq 0 (length l).
Proof.
  apply list_eq. intros k. rewrite list_lookup_fmap.
  destruct (l !! k) as [a|] eqn:E.
  - rewrite lookup_seq_lt by by eapply lookup_lt_Some.
    assert (enumerate l !! k = Some (k, a)) as -> by by apply enumerate_lookup.
    done.
  - rewrite lookup_seq_ge by by apply lookup_ge_None.
    unfold enumerate. by rewrite list_lookup_imap, E.
Qed.

Lemma fit_multiclass_calls X y (st : estimator F L Loss) k args :
  (_fit_multiclass plain_sgd X y st).2 !! k = Some args →
  ∃ c, classes st !! k = Some c ∧ is_ova_call st y k c args.
Proof.
  rewrite fit_multiclass_run.
  destruct (for_each _ (enumerate (classes st)) st) as [[r st1] cs] eqn:E.
  destruct (dispatch_inv _ _ _ _ _ _ _ _ _ E) as (-> & Hcalls & _).
  assert (cs !! k = Some args → ∃ c, classes st !! k = Some c ∧ is_ova_call st y k c args)
    as Hcs.
  { intros Hk. destruct (Hcalls _ _ Hk) as (i & c & Hl & Hcall).
    apply enumerate_lookup in Hl as [-> Hl]. eauto. }
  destruct r as [res|e]; [|done].
  destruct (for_each write_back res st) as [[[us|e] st2] cs2] eqn:E2;
    apply write_backs_calls in E2 as ->; simpl; by rewrite app_nil_r.
Qed.

Lemma fit_multiclass_ok X y (st st' : estimator F L Loss) calls :
  _fit_multiclass plain_sgd X y st = (Ok (), st', calls) →
  ∃ res us st2,
    for_each (ova_task plain_sgd (data (as_csr X)) (indices (as_csr X))
                (indptr (as_csr X)) y) (enumerate (classes st)) st
      = (Ok res, st, calls) ∧
    for_each write_back res st = (Ok us, st2, []) ∧
    st' = with_coef st2 (coef_ st2) (csr_matrix <$> coef_ st2).
Proof.
  rewrite fit_multiclass_run.
  destruct (for_each _ (enumerate (classes st)) st) as [[r st1] cs] eqn:E.
  destruct (dispatch_inv _ _ _ _ _ _ _ _ _ E) as (-> & _ & _).
  destruct r as [res|e]; [|done].
  destruct (for_each write_back res st) as [[[us|e] st2] cs2] eqn:E2; [|done].
  pose proof (write_backs_calls _ _ _ _ _ E2) as ->.
  intros E3. inversion E3; subst. rewrite app_nil_r. by exists res, us, st2.
Qed.

(** The results of a dispatch carry the class indices of the tasks. *)
Lemma dispatch_indices Xd Xi Xp y l (st st' : estimator F L Loss) res calls :
  for_each (ova_task plain_sgd Xd Xi Xp y) l st = (Ok res, st', calls) →
  res.*1.*1 = l.*1.
Proof.
  revert res st' calls. induction l as [|[i c] l IH]; intros res st' calls Hrun.
  - simpl in Hrun. run_m. by inversion Hrun.
  - rewrite for_each_cons in Hrun.
    destruct (ova_task _ _ _ _ _ (i, c) st) as [[r1 st1] c1] eqn:E1.
    apply ova_task_inv in E1 as [-> Hhead].
    destruct Hhead as [[-> [e ->]]|(args & -> & Hcall & ->)]; [done|].
    destruct (plain_sgd args) as [[coef b]|]; [|done].
    destruct (for_each _ l st) as [[[bs|e] st2] c2] eqn:E2; [|done].
    inversion Hrun; subst. simpl. f_equal. by eapply IH.
Qed.

Lemma fit_multiclass_indices X y (st st1 : estimator F L Loss) res calls :
  for_each (ova_task plain_sgd (data (as_csr X)) (indices (as_csr X))
              (indptr (as_csr X)) y) (enumerate (classes st)) st
    = (Ok res, st1, calls) →
  res.*1.*1 = seq 0 (length (classes st)).
Proof. intros E. apply dispatch_indices in E. by rewrite E, enumerate_fst. Qed.

(** Writes keyed by index: the last write at an index wins, an index
    that is not written keeps its entry. *)
Lemma foldl_insert_notin {A B} (key : B → nat) (val : B → A) l (base : list A) i :
  i ∉ key <$> l →
  foldl (λ acc r, <[key r := val r]> acc) base l !! i = base !! i.
Proof.
  revert base. induction l as [|r l IH]; intros base Hnin; [done|].
  simpl in *. apply not_elem_of_cons in Hnin as [Hne Hnin].
  rewrite IH by done. by apply list_lookup_insert_ne.
Qed.

Lemma foldl_insert_length {A B} (key : B → nat) (val : B → A) l (base : list A) :
  length (foldl (λ acc r, <[key r := val r]> acc) base l) = length base.
Proof.
  revert base. induction l as [|r l IH]; intros base; [done|].
  simpl. by rewrite IH, length_insert.
Qed.

Lemma foldl_insert_in {A B} (key : B → nat) (val : B → A) l (base : list A) r :
  NoDup (key <$> l) → r ∈ l → key r < length base →
  foldl (λ acc r, <[key r := val r]> acc) base l !! key r = Some (val r).
Proof.
  revert base. induction l as [|a l IH]; intros base Hnd Hin Hlt.
  - by apply elem_of_nil in Hin.
  - simpl in *. apply NoDup_cons in Hnd as [Hnin Hnd].
    apply elem_of_cons in Hin as [->|Hin].
    + rewrite foldl_insert_notin by done. by apply list_lookup_insert_eq.
    + apply IH; [done|done|]. by rewrite length_insert.
Qed.

(** The write-back loop on a weight matrix and an intercept vector, for
    results whose weights have the width of the matrix. *)
Lemma write_backs_shape res (st st' : estimator F L Loss) us cs n rows v :
  coef_ st = Some (Arr2 n rows) →
  intercept_ st = Arr1 v →
  Forall (λ r, length r.1.2 = n) res →
  for_each write_back res st = (Ok us, st', cs) →
  coef_ st' = Some (Arr2 n (foldl (λ acc r, <[r.1.1 := r.1.2]> acc) rows res)) ∧
  intercept_ st' = Arr1 (foldl (λ acc r, <[r.1.1 := r.2]> acc) v res).
Proof.
  revert st us cs rows v.
  induction res as [|[[i coef] b] res IH]; intros st us cs rows v HW Hb Hlen Hrun.
  - simpl in Hrun. run_m. inversion Hrun; subst. by rewrite HW, Hb.
  - rewrite for_each_cons in Hrun.
    destruct (write_back _ st) as [[[u|e] st1] c1] eqn:E1; [|done].
    apply write_back_ok in E1 as (-> & W & W' & b' & HW0 & HW' & Hb' & ->).
    rewrite HW in HW0. inversion HW0; subst W; clear HW0.
    rewrite Hb in Hb'. apply Forall_cons in Hlen as [Hl Hlen]. simpl in Hl.
    simpl in HW', Hb'.
    destruct (decide (i < length rows)); [|done].
    rewrite decide_True in HW' by done. inversion HW'; subst W'; clear HW'.
    destruct (decide (i < length v)); [|done]. inversion Hb'; subst b'; clear Hb'.
    destruct (for_each write_back res _) as [[[bs|e] st2] c2] eqn:E2; [|done].
    inversion Hrun; subst. simpl.
    eapply IH; [| |exact Hlen|exact E2]; done.
Qed.

(** Writes keep a matrix rectangular. *)
Lemma setitem_vec_wf (W W' : ndarray F) i v :
  setitem_vec W i v = Ok W' → wf_ndarray W → wf_ndarray W'.
Proof.
  destruct W as [x|w|n rows]; simpl; [done| |].
  - destruct (decide (i < length w)); [|done].
    destruct v as [|x [|? ?]]; try done. by intros [= <-].
  - destruct (decide (i < length rows)); [|done]. intros E Hwf.
    assert (∃ v', length v' = n ∧ W' = Arr2 n (<[i := v']> rows)) as (v' & Hv & ->).
    { destruct (decide (length v = n)); [inversion E; eauto|].
      destruct v as [|x [|? ?]]; try done. inversion E; subst.
      eexists. split; [|done]. by rewrite length_replicate. }
    simpl. by apply Forall_insert.
Qed.

Lemma write_backs_wf res (st st' : estimator F L Loss) us cs :
  for_each write_back res st = (Ok us, st', cs) → wf_coef st → wf_coef st'.
Proof.
  revert st us cs. induction res as [|[[i v] x] res IH]; intros st us cs Hrun Hwf.
  - simpl in Hrun. run_m. by inversion Hrun; subst.
  - rewrite for_each_cons in Hrun.
    destruct (write_back _ st) as [[[u|e] st1] c1] eqn:E1; [|done].
    apply write_back_ok in E1 as (-> & W & W' & b' & HW & HW' & Hb' & ->).
    destruct (for_each write_back res _) as [[[bs|e] st2] c2] eqn:E2; [|done].
    inversion Hrun; subst. eapply IH; [exact E2|].
    unfold wf_coef in *. simpl. rewrite HW in Hwf. by eapply setitem_vec_wf.
Qed.

Lemma atleast_2d_wf (a : ndarray F) : wf_ndarray a → wf_ndarray (atleast_2d a).
Proof. destruct a as [x|v|n rows]; simpl; auto. Qed.

Lemma atleast_2d_idemp (a : ndarray F) : atleast_2d (atleast_2d a) = atleast_2d a.
Proof. by destruct a. Qed.

(** With a kernel that returns as many weights as it is given, the
    results of the dispatch on a rectangular weight matrix have the width
    of the matrix. *)
Lemma fit_multiclass_width X y (st st1 : estimator F L Loss) res calls n rows :
  (∀ args coef b w,
      plain_sgd args = Some (coef, b) → k_w args = Some (Arr1 w) →
      length coef = length w) →
  coef_ st = Some (Arr2 n rows) →
  Forall (λ r, length r = n) rows →
  for_each (ova_task plain_sgd (data (as_csr X)) (indices (as_csr X))
              (indptr (as_csr X)) y) (enumerate (classes st)) st
    = (Ok res, st1, calls) →
  Forall (λ r, length r.1.2 = n) res.
Proof.
  intros Hkernel HW Hwf Hd.
  pose proof (fit_multiclass_indices _ _ _ _ _ _ Hd) as Hidx.
  destruct (dispatch_inv _ _ _ _ _ _ _ _ _ Hd) as (_ & Hcalls & Hres).
  destruct (Hres res eq_refl) as [Hlen Hk].
  apply Forall_lookup. intros k [[i0 coef] b] Hr. simpl.
  assert (k < length (enumerate (classes st))) as Hlt.
  { apply lookup_lt_Some in Hr.
    assert (length res = length (classes st)) as Hlr.
    { rewrite <- (length_seq (length (classes st)) 0), <- Hidx.
      by rewrite !length_fmap. }
    unfold enumerate. rewrite length_imap. lia. }
  destruct (lookup_lt_is_Some_2 _ _ Hlt) as [[i1 c1] Hl].
  destruct (Hk _ _ _ Hl) as (args & coef' & b' & Ha & Hr' & Hsgd).
  rewrite Hr in Hr'. inversion Hr'; subst.
  destruct (Hcalls _ _ Ha) as (i2 & c2 & _ & W & HW' & (w0 & Hgw & Hkw) & _).
  rewrite HW in HW'. inversion HW'; subst W; clear HW'. simpl in Hgw.
  destruct (rows !! i2) as [w|] eqn:Hw; [|done]. inversion Hgw; subst w0.
  rewrite (Hkernel _ _ _ _ Hsgd Hkw).
  by apply (Forall_lookup_1 _ _ _ _ Hwf Hw).
Qed.

(** *** Label encoding *)

Lemma encode_one_vs_rest (y : list L) c :
  fmul f1 fneg1 = fneg1 →
  mask_assign (neg_ones y) (eq_mask y c) f1 = one_vs_rest y c.
Proof.
  intros Hmul. unfold mask_assign, neg_ones, eq_mask, one_vs_rest.
  induction y as [|l y IH]; [done|]. simpl. f_equal; [|exact IH].
  rewrite Hmul. unfold bool_decide, decide. by destruct (decide_rel eq l c).
Qed.

(** ** The claims *)

(** C9 — The decision function of the classifier and the prediction
    function of the regressor leave the estimator exactly as they found
    it, for every input matrix and every estimator state, and they call
    no kernel. *)
Theorem decision_function_pure (X : matrix F) (st : estimator F L Loss) :
  ((decision_function X st).1.2 = st ∧ (decision_function X st).2 = []) ∧
  ((predict X st).1.2 = st ∧ (predict X st).2 = []).
Proof.
  unfold decision_function, predict. run_m.
  destruct (sparse_coef_ st) as [W|]; simpl; [|done].
  destruct (dot_T_todense _ W) as [prod|e]; simpl; [|done].
  destruct (add_broadcast prod (intercept_ st)) as [scores|e]; simpl; [|done].
  by destruct (decide (length (classes st) = 2)).
Qed.

(** C3 — In a binary fit, the label vector handed to the kernel maps
    every sample whose label is the second class value to [1.0] and every
    other sample to [-1.0] (given that [1.0 * -1.0] is [-1.0]). *)
Theorem fit_binary_labels X y (st : estimator F L Loss) c1 w cw1 cw0 :
  fmul f1 fneg1 = fneg1 →
  classes st !! 1 = Some c1 →
  coef_ st = Some w →
  class_weight st !! 1 = Some cw1 →
  class_weight st !! 0 = Some cw0 →
  ∃ args,
    (_fit_binary plain_sgd X y st).2 = [args] ∧
    k_Y args = (λ l, if decide (l = c1) then f1 else fneg1) <$> y.
Proof.
  intros Hmul Hc Hw H1 H0.
  destruct (fit_binary_run X y st c1 cw1 cw0 Hc H1 H0)
    as (args & _ & _ & HY & _ & _ & ->).
  exists args. split.
  - destruct (plain_sgd args) as [[? ?]|]; [|done]. by rewrite Hw.
  - rewrite HY. by apply encode_one_vs_rest.
Qed.

(** C2 — A binary fit on an estimator with two classes and two class
    weights, whose weights are one vector [w] (held flat or as a matrix
    with one row), calls the kernel once, on those weights and on the
    intercept of the estimator.  When the kernel returns the weights
    [coef], as many as it was handed, and the intercept [b], the fit
    returns: [coef_] is then the matrix whose single row is [coef],
    [intercept_] is [b], and [sparse_coef_] is the sparse encoding of
    that matrix, which densified gives [coef_] back. *)
Theorem fit_binary_stores_returned X y (st : estimator F L Loss) c1 cw1 cw0 a w :
  classes st !! 1 = Some c1 →
  class_weight st !! 1 = Some cw1 →
  class_weight st !! 0 = Some cw0 →
  coef_ st = Some a →
  atleast_2d a = Arr2 (length w) [w] →
  ∃ args,
    (_fit_binary plain_sgd X y st).2 = [args] ∧
    k_w args = Some a ∧ k_intercept args = intercept_ st ∧
    ∀ coef b,
      plain_sgd args = Some (coef, b) → length coef = length w →
      ∃ st',
        _fit_binary plain_sgd X y st = (Ok (), st', [args]) ∧
        coef_ st' = Some (Arr2 (length w) [coef]) ∧
        intercept_ st' = Arr0 b ∧
        sparse_coef_ st' = Some (csr_matrix (Arr2 (length w) [coef])) ∧
        todense <$> sparse_coef_ st' = coef_ st'.
Proof.
  intros Hc H1 H0 Hw Ha.
  destruct (fit_binary_run X y st c1 cw1 cw0 Hc H1 H0)
    as (args & Hkw & Hkb & _ & _ & _ & E).
  exists args. rewrite E, Hw. split.
  { by destruct (plain_sgd args) as [[? ?]|]. }
  split; [by rewrite Hkw|]. split; [done|].
  intros coef b -> Hlen. rewrite (atleast_2d_refill a w coef Ha Hlen).
  eexists. split; [reflexivity|]. simpl. do 3 (split; [done|]). f_equal.
  apply todense_csr_of_rows. apply Forall_singleton. done.
Qed.

(** C7 — A regressor fit makes exactly one kernel call: on the whole
    weight vector and intercept of the estimator, with the raw targets as
    labels and with both class weights equal to [1.0]; a one-dimensional
    [coef_] is one-dimensional after the fit. *)
Theorem fit_regressor_contract X y (st : estimator F L Loss) w :
  coef_ st = Some (Arr1 w) →
  ∃ args,
    (_fit_regressor plain_sgd X y st).2 = [args] ∧
    k_Y args = y ∧
    k_weight_pos args = f1 ∧ k_weight_neg args = f1 ∧
    k_w args = Some (Arr1 w) ∧ k_intercept args = intercept_ st ∧
    is_1d <$> coef_ (_fit_regressor plain_sgd X y st).1.2 = Some true.
Proof.
  intros Hw.
  destruct (fit_regressor_run X y st) as (args & Hkw & Hkb & HY & Hp & Hn & ->).
  exists args. rewrite Hkw, Hw.
  destruct (plain_sgd args) as [[coef b]|]; simpl; by rewrite ?Hw.
Qed.

(** C10 — Every kernel call of a multiclass fit gets [1.0] as the weight
    of the negative class and [class_weight[i]] as the weight of the
    positive class, [i] being the index of its class; a successful fit
    makes one call per class; and the call of every class is made
    whenever the kernel returns on every argument list and the estimator
    holds a weight matrix, an intercept vector and class weights with an
    entry for every class.  The kernel call of a binary fit gets
    [class_weight[1]] and [class_weight[0]]; a successful fit makes one
    call; and the call is made whenever there are two classes and two
    class weights. *)
Theorem class_weights_forwarded X y (st : estimator F L Loss) :
  ((∀ i args, (_fit_multiclass plain_sgd X y st).2 !! i = Some args →
      k_weight_neg args = f1 ∧
      class_weight st !! i = Some (k_weight_pos args)) ∧
   ((_fit_multiclass plain_sgd X y st).1.1 = Ok () →
      length (_fit_multiclass plain_sgd X y st).2 = length (classes st)) ∧
   (∀ n rows v,
      (∀ a, is_Some (plain_sgd a)) →
      coef_ st = Some (Arr2 n rows) → intercept_ st = Arr1 v →
      length (classes st) ≤ length rows → length (classes st) ≤ length v →
      length (classes st) ≤ length (class_weight st) →
      ∀ i c, classes st !! i = Some c →
        ∃ args, (_fit_multiclass plain_sgd X y st).2 !! i = Some args ∧
                k_weight_neg args = f1 ∧
                class_weight st !! i = Some (k_weight_pos args))) ∧
  ((∀ args, args ∈ (_fit_binary plain_sgd X y st).2 →
      class_weight st !! 1 = Some (k_weight_pos args) ∧
      class_weight st !! 0 = Some (k_weight_neg args)) ∧
   ((_fit_binary plain_sgd X y st).1.1 = Ok () →
      length (_fit_binary plain_sgd X y st).2 = 1) ∧
   (∀ c1 cw1 cw0,
      classes st !! 1 = Some c1 →
      class_weight st !! 1 = Some cw1 → class_weight st !! 0 = Some cw0 →
      ∃ args, (_fit_binary plain_sgd X y st).2 = [args] ∧
              k_weight_pos args = cw1 ∧ k_weight_neg args = cw0)).
Proof.
  assert (∀ i args, (_fit_multiclass plain_sgd X y st).2 !! i = Some args →
            k_weight_neg args = f1 ∧
            class_weight st !! i = Some (k_weight_pos args)) as Hall.
  { intros i args Hi.
    apply fit_multiclass_calls in Hi as (c & _ & W & _ & _ & _ & Hp & Hn & _).
    done. }
  split; [split; [exact Hall|split]|split; [|split]].
  - destruct (_fit_multiclass plain_sgd X y st) as [[r st'] calls] eqn:E. simpl.
    intros ->. apply fit_multiclass_ok in E as (res & us & st2 & E & _ & _).
    destruct (dispatch_inv _ _ _ _ _ _ _ _ _ E) as (_ & _ & Hres).
    destruct (Hres res eq_refl) as [-> _].
    unfold enumerate. by rewrite length_imap.
  - intros n rows v Htotal HW Hb Hr Hv Hcw i c Hc.
    destruct (dispatch_succeeds (data (as_csr X)) (indices (as_csr X))
                (indptr (as_csr X)) y (enumerate (classes st)) st n rows v
                Htotal HW Hb) as (res & calls & Hd).
    { apply Forall_lookup. intros k [i0 c0] Hk.
      apply enumerate_lookup in Hk as [-> Hk]. apply lookup_lt_Some in Hk.
      simpl. lia. }
    destruct (dispatch_inv _ _ _ _ _ _ _ _ _ Hd) as (_ & _ & Hres).
    destruct (Hres res eq_refl) as [_ Hk].
    assert (enumerate (classes st) !! i = Some (i, c)) as Hl
      by by apply enumerate_lookup.
    destruct (Hk _ _ _ Hl) as (args & coef & b & Ha & _ & _).
    assert ((_fit_multiclass plain_sgd X y st).2 !! i = Some args) as Hi.
    { rewrite fit_multiclass_run, Hd.
      destruct (for_each write_back res st) as [[[us|e] st2] cs2] eqn:E2;
        simpl; by apply lookup_app_l_Some. }
    exists args. split; [exact Hi|]. by apply Hall.
  - destruct (fit_binary_cases X y st) as [[e ->]|(c1 & cw1 & cw0 & Hc & H1 & H0)].
    { simpl. intros args Hin. by apply elem_of_nil in Hin. }
    destruct (fit_binary_run X y st c1 cw1 cw0 Hc H1 H0)
      as (args & _ & _ & _ & Hp & Hn & ->).
    intros a Hin. assert (a = args) as ->.
    { destruct (plain_sgd args) as [[? ?]|]; [destruct (coef_ st)|];
        simpl in Hin; by apply list_elem_of_singleton in Hin. }
    by rewrite Hp, Hn.
  - destruct (fit_binary_cases X y st) as [[e ->]|(c1 & cw1 & cw0 & Hc & H1 & H0)].
    { done. }
    destruct (fit_binary_run X y st c1 cw1 cw0 Hc H1 H0)
      as (args & _ & _ & _ & _ & _ & ->).
    destruct (plain_sgd args) as [[? ?]|]; [by destruct (coef_ st)|done].
  - intros c1 cw1 cw0 Hc H1 H0.
    destruct (fit_binary_run X y st c1 cw1 cw0 Hc H1 H0)
      as (args & _ & _ & _ & Hp & Hn & ->).
    exists args. split; [|done].
    destruct (plain_sgd args) as [[? ?]|]; [by destruct (coef_ st)|done].
Qed.


(** C5 — Whatever the order in which the results of the sub-fits are
    written back, a multiclass fit that succeeds ends in the same
    estimator, hence with the same [coef_] and [intercept_]: every result
    is written at its own class index. *)
Theorem write_back_order_independent reorder X y (st st' : estimator F L Loss) calls :
  (∀ res, reorder res ≡ₚ res) →
  _fit_multiclass plain_sgd X y st = (Ok (), st', calls) →
  _fit_multiclass_reordered plain_sgd reorder X y st = (Ok (), st', calls).
Proof.
  intros Hperm Hfit.
  apply fit_multiclass_ok in Hfit as (res & us & st2 & Hd & Hw & ->).
  rewrite fit_multiclass_reordered_run, Hd.
  assert (NoDup (res.*1.*1)) as Hnd.
  { rewrite (fit_multiclass_indices _ _ _ _ _ _ Hd). apply NoDup_seq. }
  destruct (write_backs_perm res (reorder res) (symmetry (Hperm res)) Hnd _ _ _ _ Hw)
    as [us' ->].
  by rewrite app_nil_r.
Qed.

(** C4 — In a multiclass fit that succeeds, on a weight matrix with one
    row per class and an intercept vector, the sub-fit of the class with
    index [i] and label [c] gets the one-vs-rest encoding of the labels
    for [c], starts from row [i] of [coef_] and entry [i] of
    [intercept_], and what the kernel returns for it is row [i] of
    [coef_] and entry [i] of [intercept_] after the fit (for a kernel
    that returns as many weights as it is given, and given that
    [1.0 * -1.0] is [-1.0]). *)
Theorem fit_multiclass_one_vs_rest X y (st st' : estimator F L Loss) calls n rows v :
  fmul f1 fneg1 = fneg1 →
  (∀ args coef b w,
      plain_sgd args = Some (coef, b) → k_w args = Some (Arr1 w) →
      length coef = length w) →
  coef_ st = Some (Arr2 n rows) →
  Forall (λ r, length r = n) rows →
  intercept_ st = Arr1 v →
  _fit_multiclass plain_sgd X y st = (Ok (), st', calls) →
  ∀ i c, classes st !! i = Some c →
    ∃ args w b coef b' rows' v',
      calls !! i = Some args ∧
      k_Y args = (λ l, if decide (l = c) then f1 else fneg1) <$> y ∧
      rows !! i = Some w ∧ k_w args = Some (Arr1 w) ∧
      v !! i = Some b ∧ k_intercept args = Arr0 b ∧
      plain_sgd args = Some (coef, b') ∧
      coef_ st' = Some (Arr2 n rows') ∧ rows' !! i = Some coef ∧
      intercept_ st' = Arr1 v' ∧ v' !! i = Some b'.
Proof.
  intros Hmul Hkernel HW Hwf Hb Hfit i c Hc.
  apply fit_multiclass_ok in Hfit as (res & us & st2 & Hd & Hwb & ->).
  pose proof (fit_multiclass_indices _ _ _ _ _ _ Hd) as Hidx.
  destruct (dispatch_inv _ _ _ _ _ _ _ _ _ Hd) as (_ & Hcalls & Hres).
  destruct (Hres res eq_refl) as [Hlen Hk].
  (* every call starts from a row of the matrix *)
  assert (Hrow : ∀ k args, calls !! k = Some args →
            ∃ c w b, classes st !! k = Some c ∧
              rows !! k = Some w ∧ k_w args = Some (Arr1 w) ∧
              v !! k = Some b ∧ k_intercept args = Arr0 b ∧
              k_Y args = mask_assign (neg_ones y) (eq_mask y c) f1).
  { intros k args Ha.
    destruct (Hcalls _ _ Ha)
      as (i0 & c0 & Hl & W & HW' & (w0 & Hgw & Hkw) & Hgb & _ & _ & HY).
    apply enumerate_lookup in Hl as [-> Hl].
    rewrite HW in HW'. inversion HW'; subst W; clear HW'.
    rewrite Hb in Hgb. simpl in Hgw, Hgb.
    destruct (rows !! k) as [w|] eqn:Hw; [|done].
    destruct (v !! k) as [b|] eqn:Hv; [|done].
    inversion Hgw; subst w0. inversion Hgb. by exists c0, w, b. }
  pose proof (fit_multiclass_width _ _ _ _ _ _ _ _ Hkernel HW Hwf Hd) as Hwidth.
  destruct (write_backs_shape _ _ _ _ _ _ _ _ HW Hb Hwidth Hwb) as [HW2 Hb2].
  assert (enumerate (classes st) !! i = Some (i, c)) as Hl by by apply enumerate_lookup.
  destruct (Hk _ _ _ Hl) as (args & coef & b' & Ha & Hr & Hsgd).
  destruct (Hrow _ _ Ha) as (c' & w & b & Hc' & Hw & Hkw & Hv & Hkb & HY).
  rewrite Hc in Hc'. inversion Hc'; subst c'.
  assert (NoDup ((λ r : nat * list F * F, r.1.1) <$> res)) as Hnd.
  { assert ((λ r : nat * list F * F, r.1.1) <$> res = res.*1.*1) as ->
      by by rewrite <- list_fmap_compose.
    rewrite Hidx. apply NoDup_seq. }
  assert ((i, coef, b') ∈ res) as Hin by (apply list_elem_of_lookup; eauto).
  exists args, w, b, coef, b'. do 2 eexists.
  split; [done|]. split; [by rewrite HY, encode_one_vs_rest|].
  do 5 (split; [done|]). simpl. split; [exact HW2|]. split.
  { apply (foldl_insert_in (λ r : nat * list F * F, r.1.1) (λ r, r.1.2) res rows (i, coef, b'));
      [done|done|]. simpl. by eapply lookup_lt_Some. }
  split; [exact Hb2|].
  apply (foldl_insert_in (λ r : nat * list F * F, r.1.1) (λ r, r.2) res v (i, coef, b'));
    [done|done|]. simpl. by eapply lookup_lt_Some.
Qed.

(** C6 — After every fit that succeeds (binary, multiclass or
    regressor) on an estimator whose weight array is rectangular,
    densifying [sparse_coef_] yields [coef_] viewed in two dimensions
    ([np.atleast_2d(coef_)]): [coef_] itself when it is two-dimensional,
    the matrix with [coef_] as its only row when it is one-dimensional. *)
Theorem sparse_coef_faithful op (st st' : estimator F L Loss) calls :
  wf_coef st →
  run_fit plain_sgd op st = (Ok (), st', calls) →
  todense <$> sparse_coef_ st' = atleast_2d <$> coef_ st' ∧
  (∀ n rows, coef_ st' = Some (Arr2 n rows) →
     todense <$> sparse_coef_ st' = coef_ st').
Proof.
  intros Hwf Hrun.
  assert (todense <$> sparse_coef_ st' = atleast_2d <$> coef_ st') as Hmain; cycle 1.
  { split; [done|]. intros n rows E. by rewrite Hmain, E. }
  destruct op as [X y|X y|X y]; simpl in Hrun.
  - destruct (fit_binary_cases X y st) as [[e He]|(c1 & cw1 & cw0 & Hc & H1 & H0)].
    { by rewrite He in Hrun. }
    destruct (fit_binary_run X y st c1 cw1 cw0 Hc H1 H0)
      as (args & _ & _ & _ & _ & _ & E).
    rewrite E in Hrun. destruct (plain_sgd args) as [[coef b]|]; [|done].
    unfold wf_coef in Hwf. destruct (coef_ st) as [a|]; [|done].
    inversion Hrun; subst. simpl. f_equal.
    rewrite todense_csr_matrix, atleast_2d_idemp; [done|].
    by apply atleast_2d_wf, refill_wf.
  - apply fit_multiclass_ok in Hrun as (res & us & st2 & _ & Hwb & ->).
    apply write_backs_wf in Hwb; [|done]. unfold wf_coef in Hwb. simpl.
    destruct (coef_ st2) as [W|]; [|done]. simpl. f_equal.
    by apply todense_csr_matrix.
  - destruct (fit_regressor_run X y st) as (args & _ & _ & _ & _ & _ & E).
    rewrite E in Hrun. destruct (plain_sgd args) as [[coef b]|]; [|done].
    inversion Hrun; subst. simpl.
    unfold wf_coef in Hwf. destruct (coef_ st) as [a|]; [|done]. simpl. f_equal.
    apply todense_csr_matrix. by apply refill_wf.
Qed.

(** *** Scores *)

Lemma stored_rows_length (X : matrix F) : length (stored_rows X) = n_samples X.
Proof. unfold stored_rows, n_samples. by rewrite length_fmap, length_seq. Qed.

Lemma linear_scores_length (X : matrix F) W b :
  length (linear_scores X W b) = n_samples X.
Proof. unfold linear_scores. by rewrite length_fmap, stored_rows_length. Qed.

Lemma linear_scores_width (X : matrix F) (W : list (list F)) (b : list F) :
  length b = length W →
  Forall (λ r, length r = length W) (linear_scores X W b).
Proof.
  intros Hb. unfold linear_scores. apply Forall_fmap, Forall_forall.
  intros xs _. simpl. rewrite length_zip_with. lia.
Qed.

(** The scores of a fitted model, before flattening. *)
Lemma score_matrix (X : matrix F) (st : estimator F L Loss) n W (b : ndarray F) bs :
  n_features X = n →
  sparse_coef_ st = Some (csr_of_rows n W) →
  intercept_ st = b →
  length bs = length W →
  (b = Arr1 bs ∨ ∃ b0, bs = [b0] ∧ b = Arr0 b0) →
  ∃ scores,
    scores = Arr2 (length W) (linear_scores X W bs) ∧
    decision_function X st =
      (Ok (if decide (length (classes st) = 2) then ravel scores else scores),
       st, []) ∧
    predict X st = (Ok (ravel scores), st, []).
Proof.
  intros Hn Hsp Hb Hlen Hshape. eexists. split; [reflexivity|].
  assert (add_broadcast
            (Arr2 (length W)
               ((λ xs, sdot xs <$> W) <$>
                  (csr_row (as_csr X) <$> seq 0 (n_rows (as_csr X)))))
            (intercept_ st)
          = Ok (Arr2 (length W) (linear_scores X W bs))) as Hsum.
  { rewrite Hb. unfold linear_scores, stored_rows.
    destruct Hshape as [->|(b0 & -> & ->)].
    - rewrite add_broadcast_vector; [| |done].
      + do 2 f_equal. rewrite <- !list_fmap_compose. apply list_fmap_ext.
        intros _ s _. simpl. by rewrite zip_with_fmap_l.
      + apply Forall_fmap, Forall_forall. intros xs _. simpl.
        by rewrite length_fmap.
    - destruct W as [|w [|??]]; try done. simpl.
      rewrite add_broadcast_scalar.
      + do 2 f_equal. rewrite <- !list_fmap_compose. by apply list_fmap_ext.
      + apply Forall_fmap, Forall_forall. by intros xs _. }
  assert (match X with Sparse A => A | Dense a => csr_matrix a end = as_csr X)
    as HX by by destruct X.
  split.
  - unfold decision_function. run_m. rewrite Hsp. simpl. rewrite HX.
    rewrite dot_T_todense_csr_of_rows by done. simpl. rewrite Hsum. simpl.
    by destruct (decide (length (classes st) = 2)).
  - unfold predict. run_m. rewrite Hsp. simpl. rewrite HX.
    rewrite dot_T_todense_csr_of_rows by done. simpl. by rewrite Hsum.
Qed.

(** The fits establish [fitted]. *)
Lemma fit_binary_fitted X y (st st' : estimator F L Loss) calls w :
  coef_ st = Some (Arr1 w) →
  length (classes st) = 2 →
  _fit_binary plain_sgd X y st = (Ok (), st', calls) →
  ∃ w' b, fitted Binary st' (length w) [w'] [b].
Proof.
  intros Hw Hcl Hrun.
  destruct (fit_binary_cases X y st) as [[e He]|(c1 & cw1 & cw0 & Hc & H1 & H0)].
  { by rewrite He in Hrun. }
  destruct (fit_binary_run X y st c1 cw1 cw0 Hc H1 H0)
    as (args & _ & _ & _ & _ & _ & E).
  rewrite E, Hw in Hrun. destruct (plain_sgd args) as [[coef b]|]; [|done].
  inversion Hrun; subst. exists (overwrite w coef), b. unfold fitted. simpl.
  rewrite overwrite_length. repeat split; eauto.
  apply Forall_singleton. apply overwrite_length.
Qed.

Lemma fit_regressor_fitted X y (st st' : estimator F L Loss) calls w :
  coef_ st = Some (Arr1 w) →
  _fit_regressor plain_sgd X y st = (Ok (), st', calls) →
  ∃ w' b, fitted Regressor st' (length w) [w'] [b].
Proof.
  intros Hw Hrun.
  destruct (fit_regressor_run X y st) as (args & _ & _ & _ & _ & _ & E).
  rewrite E, Hw in Hrun. destruct (plain_sgd args) as [[coef b]|]; [|done].
  inversion Hrun; subst. exists (overwrite w coef), b. unfold fitted. simpl.
  split; [apply Forall_singleton; apply overwrite_length|]. split; [done|].
  by exists (overwrite w coef), b.
Qed.

Lemma fit_multiclass_fitted X y (st st' : estimator F L Loss) calls n rows v :
  (∀ args coef b w,
      plain_sgd args = Some (coef, b) → k_w args = Some (Arr1 w) →
      length coef = length w) →
  coef_ st = Some (Arr2 n rows) →
  Forall (λ r, length r = n) rows →
  length rows = length (classes st) →
  intercept_ st = Arr1 v →
  length v = length (classes st) →
  length (classes st) ≠ 2 →
  _fit_multiclass plain_sgd X y st = (Ok (), st', calls) →
  ∃ W b, fitted Multiclass st' n W b.
Proof.
  intros Hkernel HW Hwf Hrows Hb Hv Hcl Hfit.
  apply fit_multiclass_ok in Hfit as (res & us & st2 & Hd & Hwb & ->).
  pose proof (fit_multiclass_width _ _ _ _ _ _ _ _ Hkernel HW Hwf Hd) as Hwidth.
  destruct (write_backs_shape _ _ _ _ _ _ _ _ HW Hb Hwidth Hwb) as [HW2 Hb2].
  assert (wf_coef st2) as Hwf2.
  { eapply write_backs_wf; [exact Hwb|]. unfold wf_coef. by rewrite HW. }
  assert (classes st2 = classes st) as Hcls.
  { clear -Hwb. revert st us Hwb. generalize (@nil (sgd_args F Loss)).
    induction res as [|[[i c] x] res IH]; intros cs st us Hwb.
    - simpl in Hwb. run_m. by inversion Hwb.
    - rewrite for_each_cons in Hwb.
      destruct (write_back _ st) as [[[u|e] st1] c1] eqn:E1; [|done].
      apply write_back_ok in E1 as (-> & W & W' & b' & _ & _ & _ & ->).
      destruct (for_each write_back res _) as [[[bs|e] st3] c2] eqn:E2; [|done].
      inversion Hwb; subst. by rewrite (IH _ _ _ E2). }
  unfold wf_coef in Hwf2. rewrite HW2 in Hwf2. simpl in Hwf2.
  do 2 eexists. unfold fitted. simpl. rewrite HW2, Hb2, Hcls. simpl.
  rewrite (foldl_insert_length (λ r : nat * list F * F, r.1.1) (λ r, r.1.2)).
  rewrite (foldl_insert_length (λ r : nat * list F * F, r.1.1) (λ r, r.2)).
  repeat split; eauto. lia.
Qed.

(** C1 — For a fitted model with [n] features and a feature matrix with
    [n] columns, dense or sparse, the scoring method returns
    [X · Wᵗ + b], where [W] holds the rows of [coef_] (of which
    [sparse_coef_] is the sparse encoding) and [b] the intercepts: as a
    flat sequence of length [n_samples] for a binary classifier and for a
    regressor, as a matrix with [n_samples] rows and [n_classes] columns
    for a multiclass classifier. *)
Theorem decision_function_scores kind (X : matrix F) (st : estimator F L Loss) n W b :
  fitted kind st n W b →
  n_features X = n →
  ∃ out,
    scores_of kind X st = (Ok out, st, []) ∧
    match kind with
    | Multiclass =>
        out = Arr2 (length (classes st)) (linear_scores X W b) ∧
        length (linear_scores X W b) = n_samples X ∧
        Forall (λ r, length r = length (classes st)) (linear_scores X W b)
    | _ =>
        out = Arr1 (concat (linear_scores X W b)) ∧
        length (concat (linear_scores X W b)) = n_samples X
    end.
Proof.
  intros (Hwf & Hlen & Hkind) Hn.
  destruct kind; simpl.
  - destruct Hkind as (Hcl & HW1 & Hcoef & Hsp & b0 & -> & Hb).
    destruct (score_matrix X st n W (Arr0 b0) [b0] Hn Hsp Hb Hlen)
      as (sc & -> & Hdf & _); [eauto|].
    rewrite Hdf, decide_True by done. eexists. split; [done|]. split; [done|].
    rewrite concat_singletons_length; [apply linear_scores_length|].
    rewrite <- HW1. by apply linear_scores_width.
  - destruct Hkind as (Hcl & HWK & Hcoef & Hsp & Hb).
    destruct (score_matrix X st n W (Arr1 b) b Hn Hsp Hb Hlen)
      as (sc & -> & Hdf & _); [eauto|].
    rewrite Hdf, decide_False by done. eexists. split; [done|].
    rewrite <- HWK. split; [done|]. split; [apply linear_scores_length|].
    by apply linear_scores_width.
  - destruct Hkind as (w & b0 & -> & -> & Hcoef & Hsp & Hb).
    apply (Forall_lookup_1 _ _ 0 w) in Hwf; [|done]; simpl in Hwf, Hsp. rewrite Hwf in Hsp.
    destruct (score_matrix X st n [w] (Arr0 b0) [b0] Hn Hsp Hb Hlen)
      as (sc & -> & _ & Hpr); [eauto|].
    rewrite Hpr. eexists. split; [done|]. split; [done|].
    rewrite concat_singletons_length; [apply linear_scores_length|].
    by apply (linear_scores_width X [w] [b0]).
Qed.

End EstimatorFacts.

(** ** Further facts about the estimators *)

Section FurtherFacts.
Context {F : Type} `{Scalar F} {L : Type} `{EqDecision L} {Loss : Type}.
Context (plain_sgd : sgd_args F Loss → option (list F * F)).

(** *** What the kernel is given *)

Lemma fit_binary_calls_config X y (st : estimator F L Loss) args :
  args ∈ (_fit_binary plain_sgd X y st).2 → carries_config st X args.
Proof.
  destruct (fit_binary_cases plain_sgd X y st)
    as [[e ->]|(c1 & cw1 & cw0 & Hc & H1 & H0)].
  { simpl. intros Hin. by apply elem_of_nil in Hin. }
  unfold _fit_binary. run_m. rewrite Hc. simpl. rewrite H1. simpl.
  rewrite H0. simpl.
  destruct (plain_sgd _) as [[coef b]|]; simpl;
    [destruct (coef_ st) as [a|] eqn:Hw; simpl; rewrite ?Hw; simpl|];
    intros Hin; apply list_elem_of_singleton in Hin; subst; by repeat split.
Qed.

Lemma fit_regressor_calls_config X y (st : estimator F L Loss) args :
  args ∈ (_fit_regressor plain_sgd X y st).2 → carries_config st X args.
Proof.
  unfold _fit_regressor. run_m.
  destruct (plain_sgd _) as [[coef b]|]; simpl;
    [destruct (coef_ st) as [a|] eqn:Hw; simpl; rewrite ?Hw; simpl|];
    intros Hin; apply list_elem_of_singleton in Hin; subst; by repeat split.
Qed.

Lemma ova_task_calls_config X y i c (st : estimator F L Loss) args :
  args ∈ (ova_task plain_sgd (data (as_csr X)) (indices (as_csr X))
            (indptr (as_csr X)) y (i, c) st).2 →
  carries_config st X args.
Proof.
  destruct (ova_task_cases plain_sgd (data (as_csr X)) (indices (as_csr X))
              (indptr (as_csr X)) y i c st)
    as [[e ->]|(W & w & b & cw & HW & Hw & Hb & Hcw)].
  { simpl. intros Hin. by apply elem_of_nil in Hin. }
  unfold ova_task, _train_ova_classifier. run_m.
  rewrite HW. simpl. rewrite Hw. simpl. rewrite Hb. simpl. rewrite Hcw. simpl.
  destruct (plain_sgd _) as [[coef b']|]; simpl; intros Hin;
    apply list_elem_of_singleton in Hin; subst; by repeat split.
Qed.

Lemma dispatch_calls_config X y l (st : estimator F L Loss) args :
  args ∈ (for_each (ova_task plain_sgd (data (as_csr X)) (indices (as_csr X))
                      (indptr (as_csr X)) y) l st).2 →
  carries_config st X args.
Proof.
  induction l as [|[i c] l IH].
  { simpl. intros Hin. by apply elem_of_nil in Hin. }
  rewrite for_each_cons.
  pose proof (ova_task_calls_config X y i c st args) as Hhead.
  destruct (ova_task _ _ _ _ _ (i, c) st) as [[r1 st1] c1] eqn:E1.
  apply ova_task_inv in E1 as [-> _]. simpl in Hhead.
  destruct r1 as [b1|e1]; [|exact Hhead].
  destruct (for_each _ l st) as [[[bs|e] st2] c2]; simpl in *; intros Hin;
    apply elem_of_app in Hin as [Hin|Hin]; auto.
Qed.

Lemma fit_multiclass_calls_config X y (st : estimator F L Loss) args :
  args ∈ (_fit_multiclass plain_sgd X y st).2 → carries_config st X args.
Proof.
  rewrite fit_multiclass_run.
  pose proof (dispatch_calls_config X y (enumerate (classes st)) st args) as Hd.
  destruct (for_each _ (enumerate (classes st)) st) as [[r st1] cs] eqn:E.
  simpl in Hd. destruct r as [res|e]; [|exact Hd].
  destruct (for_each write_back res st1) as [[[us|e] st2] cs2] eqn:E2;
    apply write_backs_calls in E2 as ->; simpl; by rewrite app_nil_r.
Qed.

Lemma run_fit_calls_config op (st : estimator F L Loss) args :
  args ∈ (run_fit plain_sgd op st).2 → carries_config st (fit_input op) args.
Proof.
  destruct op as [X y|X y|X y]; simpl.
  - apply fit_binary_calls_config.
  - apply fit_multiclass_calls_config.
  - apply fit_regressor_calls_config.
Qed.

(** *** What the write-back loop leaves alone *)

Lemma write_backs_frame res (st st' : estimator F L Loss) r cs :
  for_each write_back res st = (r, st', cs) →
  same_settings st st' ∧ sparse_coef_ st' = sparse_coef_ st.
Proof.
  revert st r st' cs. induction res as [|[[i v] x] res IH]; intros st r st' cs E.
  - simpl in E. run_m. inversion E; subst. by repeat split.
  - rewrite for_each_cons, write_back_run in E.
    destruct (coef_ st) as [W|]; [|inversion E; subst; by repeat split].
    destruct (setitem_vec W i v) as [W'|e]; [|inversion E; subst; by repeat split].
    destruct (setitem_scalar (intercept_ st) i x) as [b'|e];
      [|inversion E; subst; by repeat split].
    destruct (for_each write_back res _) as [[[bs|e] st2] c2] eqn:E2;
      apply IH in E2 as [(? & ? & ? & ?) ?]; inversion E; subst;
      simpl in *; by repeat split.
Qed.



(** X3 — A binary fit on an estimator with fewer than two classes, or
    with fewer than two class weights, raises [IndexError] before the
    kernel is called, and leaves the estimator as it was. *)
Theorem fit_binary_needs_two_classes X y (st : estimator F L Loss) :
  length (classes st) < 2 ∨ length (class_weight st) < 2 →
  _fit_binary plain_sgd X y st = (Raise IndexError, st, []).
Proof.
  intros Hshort. unfold _fit_binary. run_m.
  destruct (classes st !! 1) as [c1|] eqn:Hc; [|done]. simpl.
  destruct Hshort as [Hs|Hs].
  { apply lookup_lt_Some in Hc. lia. }
  rewrite (lookup_ge_None_2 (class_weight st) 1) by lia. done.
Qed.


(** X5 — No training call, whether it returns or raises, changes the
    constructor parameters, the class list, the class weights or the
    sample weights of the estimator. *)
Theorem fit_keeps_settings op (st : estimator F L Loss) :
  same_settings st (run_fit plain_sgd op st).1.2.
Proof.
  destruct op as [X y|X y|X y]; simpl.
  - destruct (fit_binary_cases plain_sgd X y st)
      as [[e ->]|(c1 & cw1 & cw0 & Hc & H1 & H0)]; [by repeat split|].
    destruct (fit_binary_run plain_sgd X y st c1 cw1 cw0 Hc H1 H0)
      as (args & _ & _ & _ & _ & _ & ->).
    destruct (plain_sgd args) as [[coef b]|]; [destruct (coef_ st)|];
      by repeat split.
  - rewrite fit_multiclass_run.
    destruct (for_each _ (enumerate (classes st)) st) as [[r st1] cs] eqn:E.
    destruct (dispatch_inv plain_sgd _ _ _ _ _ _ _ _ _ E) as (-> & _ & _).
    destruct r as [res|e]; [|by repeat split].
    destruct (for_each write_back res st) as [[r2 st2] cs2] eqn:E2.
    apply write_backs_frame in E2 as [(? & ? & ? & ?) _].
    destruct r2; by repeat split.
  - destruct (fit_regressor_run plain_sgd X y st)
      as (args & _ & _ & _ & _ & _ & ->).
    destruct (plain_sgd args) as [[coef b]|]; by repeat split.
Qed.

(** X6 — Any two kernel calls of one multiclass fit differ at most in the
    weights, the intercept, the label vector and the weight of the
    positive class: the feature arrays, the sample weights, the weight of
    the negative class and every constructor parameter are the same for
    all sub-fits. *)
Theorem ova_calls_differ_in_task_only X y (st : estimator F L Loss) a b :
  a ∈ (_fit_multiclass plain_sgd X y st).2 →
  b ∈ (_fit_multiclass plain_sgd X y st).2 →
  with_task_of a b = a.
Proof.
  intros Ha Hb.
  pose proof (fit_multiclass_calls_config X y st a Ha) as Ca.
  pose proof (fit_multiclass_calls_config X y st b Hb) as Cb.
  apply list_elem_of_lookup in Ha as [i Ha], Hb as [j Hb].
  apply fit_multiclass_calls in Ha as (? & _ & ? & _ & _ & _ & _ & Hna & _).
  apply fit_multiclass_calls in Hb as (? & _ & ? & _ & _ & _ & _ & Hnb & _).
  unfold carries_config in *. destruct a, b. simpl in *.
  destruct Ca as (? & ? & ? & ? & ? & ? & ? & ? & ? & ? & ? & ? & ? & ? & ? & ?).
  destruct Cb as (? & ? & ? & ? & ? & ? & ? & ? & ? & ? & ? & ? & ? & ? & ? & ?).
  unfold with_task_of. simpl. subst. reflexivity.
Qed.

(** *** The shape of the sparse encoding *)

Lemma concat_length_sum {A} (ls : list (list A)) :
  length (concat ls) = sum_list (length <$> ls).
Proof.
  induction ls as [|l ls IH]; [done|]. simpl. by rewrite length_app, IH.
Qed.

Lemma Forall_concat_of {A} (P : A → Prop) (ls : list (list A)) :
  Forall (Forall P) ls → Forall P (concat ls).
Proof.
  induction 1 as [|l ls Hl _ IH]; [constructor|]. simpl.
  by apply Forall_app.
Qed.

Lemma sparse_row_entries (r : list F) :
  Forall (λ p, p.1 < length r ∧ p.2 ≠ f0) (sparse_row r).
Proof.
  apply Forall_forall. intros [j x] Hin. unfold sparse_row in Hin.
  apply list_elem_of_filter in Hin as [Hnz Hin].
  apply elem_of_lookup_imap in Hin as (i & z & Heq & Hi). inversion Heq; subst.
  split; [|done]. simpl. by eapply lookup_lt_Some.
Qed.

Lemma csr_of_rows_shape n (rows : list (list F)) :
  Forall (λ r, length r = n) rows →
  length (indptr (csr_of_rows n rows)) = S (length rows) ∧
  indptr (csr_of_rows n rows) !! 0 = Some 0 ∧
  indptr (csr_of_rows n rows) !! length rows
    = Some (length (data (csr_of_rows n rows))) ∧
  length (indices (csr_of_rows n rows)) = length (data (csr_of_rows n rows)) ∧
  Forall (λ j, j < n) (indices (csr_of_rows n rows)) ∧
  Forall (λ x, x ≠ f0) (data (csr_of_rows n rows)).
Proof.
  intros Hwf. unfold csr_of_rows. simpl.
  assert (Forall (Forall (λ p : nat * F, p.1 < n ∧ p.2 ≠ f0)) (sparse_row <$> rows))
    as Hall.
  { apply Forall_fmap, Forall_forall. intros r Hr. simpl.
    rewrite <- (proj1 (Forall_forall _ _) Hwf r Hr). apply sparse_row_entries. }
  apply Forall_concat_of in Hall.
  split; [by rewrite offsets_length, !length_fmap|].
  split; [by rewrite offsets_lookup by lia|].
  split.
  { rewrite offsets_lookup by (by rewrite !length_fmap).
    rewrite take_ge by (by rewrite !length_fmap).
    by rewrite length_fmap, concat_length_sum. }
  split; [by rewrite !length_fmap|].
  split.
  - apply Forall_fmap. eapply Forall_impl; [exact Hall|]. by intros p [? ?].
  - apply Forall_fmap. eapply Forall_impl; [exact Hall|]. by intros p [? ?].
Qed.

(** X7 — For a dense, rectangular feature matrix, the three arrays that
    every kernel call of a training call receives are a well-formed
    compressed-row encoding of that matrix: [indptr] has one entry more
    than there are samples, starts at [0] and ends at the number of
    stored values; every column index is below the number of features;
    no stored value is zero; and decoding the arrays gives the matrix
    back. *)
Theorem kernel_gets_csr_of_input op (st : estimator F L Loss) n rows args :
  fit_input op = Dense (Arr2 n rows) →
  Forall (λ r, length r = n) rows →
  args ∈ (run_fit plain_sgd op st).2 →
  todense {| n_rows := length rows; n_cols := n;
             data := k_X_data args; indices := k_X_indices args;
             indptr := k_X_indptr args |} = Arr2 n rows ∧
  length (k_X_indptr args) = S (length rows) ∧
  k_X_indptr args !! 0 = Some 0 ∧
  k_X_indptr args !! length rows = Some (length (k_X_data args)) ∧
  length (k_X_indices args) = length (k_X_data args) ∧
  Forall (λ j, j < n) (k_X_indices args) ∧
  Forall (λ x, x ≠ f0) (k_X_data args).
Proof.
  intros HX Hwf Hin.
  apply run_fit_calls_config in Hin
    as (_ & _ & _ & _ & Hd & Hi & Hp & _).
  rewrite HX in Hd, Hi, Hp. simpl in Hd, Hi, Hp. rewrite Hd, Hi, Hp.
  split; [exact (todense_csr_of_rows n rows Hwf)|].
  exact (csr_of_rows_shape n rows Hwf).
Qed.

(** *** One-vs-all labels *)

(** X8 — In a multiclass fit on pairwise different classes, a sample whose
    label is the class with index [i] is positive ([1.0]) in the label
    vector of sub-fit [i] and negative ([-1.0]) in the label vector of
    every other sub-fit (given that [1.0 * -1.0] is [-1.0]). *)
Theorem ova_labels_partition X y (st : estimator F L Loss) k l i :
  fmul f1 fneg1 = fneg1 →
  NoDup (classes st) →
  y !! k = Some l →
  classes st !! i = Some l →
  ∀ j args,
    (_fit_multiclass plain_sgd X y st).2 !! j = Some args →
    k_Y args !! k = Some (if decide (j = i) then f1 else fneg1).
Proof.
  intros Hmul Hnd Hy Hi j args Hj.
  apply fit_multiclass_calls in Hj as (c & Hc & W & _ & _ & _ & _ & _ & HY).
  rewrite HY, encode_one_vs_rest by done. unfold one_vs_rest.
  rewrite list_lookup_fmap, Hy. simpl. f_equal.
  destruct (decide (j = i)) as [->|Hne].
  - rewrite Hi in Hc. inversion Hc; subst. by rewrite decide_True.
  - rewrite decide_False; [done|]. intros ->.
    apply Hne. by eapply NoDup_lookup.
Qed.

(** *** When the multiclass fit returns *)

Lemma write_backs_succeed res (st : estimator F L Loss) n rows v :
  coef_ st = Some (Arr2 n rows) →
  intercept_ st = Arr1 v →
  Forall (λ r : nat * list F * F,
            r.1.1 < length rows ∧ r.1.1 < length v ∧ length r.1.2 = n) res →
  ∃ us st', for_each write_back res st = (Ok us, st', []).
Proof.
  intros HW Hb Hall. revert st rows v HW Hb Hall.
  induction res as [|[[i coef] b] res IH]; intros st rows v HW Hb Hall.
  { by exists [], st. }
  apply Forall_cons in Hall as [(Hr & Hv & Hn) Hall]. simpl in Hr, Hv, Hn.
  rewrite for_each_cons, write_back_run, HW, Hb. simpl.
  rewrite !decide_True by done. simpl.
  edestruct (IH (with_intercept (with_coef st (Some (Arr2 n (<[i:=coef]> rows)))
                                   (sparse_coef_ st)) (Arr1 (<[i:=b]> v))))
    as (us & st' & ->); [reflexivity|reflexivity| |eauto].
  eapply Forall_impl; [exact Hall|]. intros r. by rewrite !length_insert.
Qed.

(** X9 — A multiclass fit returns, after one kernel call per class,
    whenever the estimator holds a rectangular weight matrix, an intercept
    vector and class weights with at least one entry per class, and the
    kernel returns for every argument list as many weights as it is
    given. *)
Theorem fit_multiclass_succeeds X y (st : estimator F L Loss) n rows v :
  (∀ a, ∃ coef b, plain_sgd a = Some (coef, b) ∧
                  ∀ w, k_w a = Some (Arr1 w) → length coef = length w) →
  coef_ st = Some (Arr2 n rows) →
  Forall (λ r, length r = n) rows →
  intercept_ st = Arr1 v →
  length (classes st) ≤ length rows →
  length (classes st) ≤ length v →
  length (classes st) ≤ length (class_weight st) →
  ∃ st' calls,
    _fit_multiclass plain_sgd X y st = (Ok (), st', calls) ∧
    length calls = length (classes st).
Proof.
  intros Hkernel HW Hwf Hb Hr Hv Hcw.
  assert (∀ a, is_Some (plain_sgd a)) as Htotal.
  { intros a. destruct (Hkernel a) as (coef & b & -> & _). eauto. }
  assert (∀ args coef b w, plain_sgd args = Some (coef, b) →
            k_w args = Some (Arr1 w) → length coef = length w) as Hlen.
  { intros a coef b w Ha Hw. destruct (Hkernel a) as (coef' & b' & Ha' & Hl).
    rewrite Ha in Ha'. inversion Ha'; subst. by apply Hl. }
  destruct (dispatch_succeeds plain_sgd (data (as_csr X)) (indices (as_csr X))
              (indptr (as_csr X)) y (enumerate (classes st)) st n rows v
              Htotal HW Hb) as (res & calls & Hd).
  { apply Forall_lookup. intros k [i c] Hk.
    apply enumerate_lookup in Hk as [-> Hk]. apply lookup_lt_Some in Hk.
    simpl. lia. }
  pose proof (fit_multiclass_indices plain_sgd _ _ _ _ _ _ Hd) as Hidx.
  pose proof (fit_multiclass_width plain_sgd _ _ _ _ _ _ _ _ Hlen HW Hwf Hd)
    as Hwidth.
  destruct (dispatch_inv plain_sgd _ _ _ _ _ _ _ _ _ Hd) as (_ & _ & Hres).
  destruct (Hres res eq_refl) as [Hcalls _].
  destruct (write_backs_succeed res st n rows v HW Hb) as (us & st' & Hwb).
  { apply Forall_lookup. intros k r Hk.
    pose proof (Forall_lookup_1 _ _ _ _ Hwidth Hk) as Hn. simpl in Hn.
    assert (r.1.1 < length (classes st)) as Hlt.
    { assert (res.*1.*1 !! k = Some r.1.1) as Hk'
        by by rewrite !list_lookup_fmap, Hk.
      rewrite Hidx in Hk'. apply lookup_seq in Hk' as [-> ?]. simpl. lia. }
    repeat split; [lia|lia|done]. }
  rewrite fit_multiclass_run, Hd, Hwb. simpl. do 2 eexists. split; [done|].
  rewrite app_nil_r, Hcalls. unfold enumerate. by rewrite length_imap.
Qed.

(** *** Warm starts *)

(** What a multiclass fit that returns leaves in the estimator. *)
Lemma fit_multiclass_rows X y (st st' : estimator F L Loss) calls n rows v :
  (∀ args coef b w,
      plain_sgd args = Some (coef, b) → k_w args = Some (Arr1 w) →
      length coef = length w) →
  coef_ st = Some (Arr2 n rows) →
  Forall (λ r, length r = n) rows →
  intercept_ st = Arr1 v →
  _fit_multiclass plain_sgd X y st = (Ok (), st', calls) →
  classes st' = classes st ∧
  ∃ rows' v',
    coef_ st' = Some (Arr2 n rows') ∧ intercept_ st' = Arr1 v' ∧
    ∀ i c, classes st !! i = Some c →
      ∃ args coef b,
        calls !! i = Some args ∧ plain_sgd args = Some (coef, b) ∧
        rows' !! i = Some coef ∧ v' !! i = Some b.
Proof.
  intros Hkernel HW Hwf Hb Hfit.
  apply fit_multiclass_ok in Hfit as (res & us & st2 & Hd & Hwb & ->).
  pose proof (fit_multiclass_indices plain_sgd _ _ _ _ _ _ Hd) as Hidx.
  pose proof (fit_multiclass_width plain_sgd _ _ _ _ _ _ _ _ Hkernel HW Hwf Hd)
    as Hwidth.
  destruct (dispatch_inv plain_sgd _ _ _ _ _ _ _ _ _ Hd) as (_ & Hcalls & Hres).
  destruct (Hres res eq_refl) as [_ Hk].
  destruct (write_backs_shape _ _ _ _ _ _ _ _ HW Hb Hwidth Hwb) as [HW2 Hb2].
  destruct (write_backs_frame _ _ _ _ _ Hwb) as [(_ & Hcls & _ & _) _].
  split; [exact Hcls|]. do 2 eexists. simpl.
  split; [exact HW2|]. split; [exact Hb2|].
  intros i c Hc.
  assert (enumerate (classes st) !! i = Some (i, c)) as Hl
    by by apply enumerate_lookup.
  destruct (Hk _ _ _ Hl) as (args & coef & b' & Ha & Hr & Hsgd).
  destruct (Hcalls _ _ Ha) as (i0 & c0 & Hl0 & W & HW' & (w0 & Hgw & _) & Hgb & _).
  rewrite Hl in Hl0. inversion Hl0; subst i0 c0.
  rewrite HW in HW'. inversion HW'; subst W. rewrite Hb in Hgb.
  simpl in Hgw, Hgb.
  destruct (rows !! i) as [w|] eqn:Hw; [|done].
  destruct (v !! i) as [b|] eqn:Hv; [|done].
  assert (NoDup ((λ r : nat * list F * F, r.1.1) <$> res)) as Hnd.
  { assert ((λ r : nat * list F * F, r.1.1) <$> res = res.*1.*1) as ->
      by by rewrite <- list_fmap_compose.
    rewrite Hidx. apply NoDup_seq. }
  assert ((i, coef, b') ∈ res) as Hin by (apply list_elem_of_lookup; eauto).
  exists args, coef, b'. split; [done|]. split; [done|]. split.
  - apply (foldl_insert_in (λ r : nat * list F * F, r.1.1) (λ r, r.1.2)
             res rows (i, coef, b')); [done|done|].
    simpl. by eapply lookup_lt_Some.
  - apply (foldl_insert_in (λ r : nat * list F * F, r.1.1) (λ r, r.2)
             res v (i, coef, b')); [done|done|].
    simpl. by eapply lookup_lt_Some.
Qed.

(** X10 — Training continues where it stopped: after a multiclass fit
    that returned, the sub-fit of every class in the next multiclass fit
    (on any data) starts from the weights and the intercept that the
    kernel returned for that class in the first fit. *)
Theorem fit_multiclass_warm_start X y X' y' (st st1 : estimator F L Loss)
    calls1 n rows v :
  (∀ args coef b w,
      plain_sgd args = Some (coef, b) → k_w args = Some (Arr1 w) →
      length coef = length w) →
  coef_ st = Some (Arr2 n rows) →
  Forall (λ r, length r = n) rows →
  intercept_ st = Arr1 v →
  _fit_multiclass plain_sgd X y st = (Ok (), st1, calls1) →
  ∀ i a2,
    (_fit_multiclass plain_sgd X' y' st1).2 !! i = Some a2 →
    ∃ a1 coef b,
      calls1 !! i = Some a1 ∧ plain_sgd a1 = Some (coef, b) ∧
      k_w a2 = Some (Arr1 coef) ∧ k_intercept a2 = Arr0 b.
Proof.
  intros Hkernel HW Hwf Hb Hfit i a2 Ha2.
  destruct (fit_multiclass_rows X y st st1 calls1 n rows v Hkernel HW Hwf Hb Hfit)
    as (Hcls & rows' & v' & HW1 & Hb1 & Hrows).
  apply fit_multiclass_calls in Ha2 as (c & Hc & W & HW' & (w0 & Hgw & Hkw) & Hgb & _).
  rewrite Hcls in Hc. destruct (Hrows i c Hc) as (a1 & coef & b & Ha1 & Hk & Hr & Hv).
  rewrite HW1 in HW'. inversion HW'; subst W. rewrite Hb1 in Hgb.
  simpl in Hgw, Hgb. rewrite Hr in Hgw. rewrite Hv in Hgb.
  inversion Hgw; subst w0. inversion Hgb. by exists a1, coef, b.
Qed.

(** X11 — Training continues where it stopped on the binary path too:
    after a binary fit that returned, on weights that are one vector
    (held flat or as a matrix with one row) and with a kernel call that
    returned as many weights as it was handed, the next binary fit (on
    any data) calls the kernel once, on the matrix whose single row holds
    the weights that the kernel returned in the first fit, and on the
    intercept that it returned. *)
Theorem fit_binary_refit X y X' y' (st st1 : estimator F L Loss) calls1 a w :
  coef_ st = Some a →
  atleast_2d a = Arr2 (length w) [w] →
  (∀ args coef b,
      args ∈ calls1 → plain_sgd args = Some (coef, b) →
      length coef = length w) →
  _fit_binary plain_sgd X y st = (Ok (), st1, calls1) →
  ∃ a1 a2 coef b,
    calls1 = [a1] ∧ plain_sgd a1 = Some (coef, b) ∧
    (_fit_binary plain_sgd X' y' st1).2 = [a2] ∧
    k_w a2 = Some (Arr2 (length w) [coef]) ∧ k_intercept a2 = Arr0 b.
Proof.
  intros Hw Ha Hkernel Hfit.
  destruct (fit_binary_cases plain_sgd X y st)
    as [[e He]|(c1 & cw1 & cw0 & Hc & H1 & H0)].
  { by rewrite He in Hfit. }
  destruct (fit_binary_run plain_sgd X y st c1 cw1 cw0 Hc H1 H0)
    as (a1 & _ & _ & _ & _ & _ & E).
  rewrite E, Hw in Hfit. destruct (plain_sgd a1) as [[coef b]|] eqn:Hk; [|done].
  assert (calls1 = [a1]) as -> by congruence.
  assert (length coef = length w) as Hlen.
  { apply (Hkernel a1 coef b); [left|done]. }
  rewrite (atleast_2d_refill a w coef Ha Hlen) in Hfit.
  assert (classes st1 !! 1 = Some c1 ∧
          coef_ st1 = Some (Arr2 (length w) [coef]) ∧
          class_weight st1 !! 1 = Some cw1 ∧ class_weight st1 !! 0 = Some cw0 ∧
          intercept_ st1 = Arr0 b) as (Hc' & Hw1 & H1' & H0' & Hb1).
  { inversion Hfit; subst st1. by repeat split. }
  destruct (fit_binary_run plain_sgd X' y' st1 c1 cw1 cw0 Hc' H1' H0')
    as (a2 & Hkw & Hkb & _ & _ & _ & E2).
  exists a1, a2, coef, b. rewrite E2.
  split; [done|]. split; [done|].
  split.
  { destruct (plain_sgd a2) as [[? ?]|]; [by destruct (coef_ st1)|done]. }
  by rewrite Hkw, Hkb, Hw1, Hb1.
Qed.

(** *** Scores *)

(** The scores of a fitted model, as the scoring method of its kind
    returns them. *)
Lemma scores_of_fitted kind (X : matrix F) (st : estimator F L Loss) n W b :
  fitted kind st n W b →
  n_features X = n →
  scores_of kind X st
  = (Ok (view_scores kind W (linear_scores X W b)), st, []).
Proof.
  intros (Hwf & Hlen & Hkind) Hn. destruct kind; simpl.
  - destruct Hkind as (Hcl & HW1 & Hcoef & Hsp & b0 & -> & Hb).
    destruct (score_matrix X st n W (Arr0 b0) [b0] Hn Hsp Hb Hlen)
      as (sc & -> & Hdf & _); [eauto|].
    by rewrite Hdf, decide_True.
  - destruct Hkind as (Hcl & HWK & Hcoef & Hsp & Hb).
    destruct (score_matrix X st n W (Arr1 b) b Hn Hsp Hb Hlen)
      as (sc & -> & Hdf & _); [eauto|].
    by rewrite Hdf, decide_False.
  - destruct Hkind as (w & b0 & -> & -> & Hcoef & Hsp & Hb).
    apply (Forall_lookup_1 _ _ 0 w) in Hwf; [|done]. simpl in Hwf, Hsp.
    rewrite Hwf in Hsp.
    destruct (score_matrix X st n [w] (Arr0 b0) [b0] Hn Hsp Hb Hlen)
      as (sc & -> & _ & Hpr); [eauto|].
    by rewrite Hpr.
Qed.

Lemma sparse_row_zero (r : list F) :
  Forall (λ x, x = f0) r → sparse_row r = [].
Proof.
  intros Hz. destruct (sparse_row r) as [|p ps] eqn:E; [done|].
  assert (p ∈ sparse_row r) as Hin by (rewrite E; left).
  unfold sparse_row in Hin. apply list_elem_of_filter in Hin as [Hnz Hin].
  apply elem_of_lookup_imap in Hin as (i & z & -> & Hi).
  destruct Hnz. simpl. by apply (Forall_lookup_1 _ _ _ _ Hz Hi).
Qed.

Lemma zip_with_snd_id {A} (W : list A) (b : list F) :
  (∀ a, fadd f0 a = a) → length b = length W →
  zip_with (λ _ x, fadd f0 x) W b = b.
Proof.
  intros Hadd. revert b. induction W as [|w W IH]; intros [|x b] Hl; try done.
  simpl in *. rewrite Hadd, IH by lia. done.
Qed.

Lemma concat_singletons_lookup {A} (S : list (list A)) s (x : A) :
  Forall (λ r, length r = 1) S → S !! s = Some [x] → concat S !! s = Some x.
Proof.
  intros HS. revert s. induction HS as [|r S Hr _ IH]; intros s Hs; [done|].
  destruct r as [|z [|??]]; try done. destruct s as [|s]; simpl in *.
  - by inversion Hs.
  - by apply IH.
Qed.

Lemma zip_with_ext_in {A B C} (f g : A → B → C) (l : list A) (k : list B) :
  (∀ a b, a ∈ l → f a b = g a b) → zip_with f l k = zip_with g l k.
Proof.
  revert k. induction l as [|a l IH]; intros [|b k] Hfg; try done.
  simpl. rewrite Hfg by left. f_equal. apply IH. intros ???. apply Hfg. by right.
Qed.

(** X12 — For a fitted model, the score of a feature row that holds only
    zeros is the intercept: the vector of the intercepts of all classes
    for a multiclass classifier, the single intercept for a binary
    classifier and for a regressor (given that [0.0 + b] is [b]). *)
Theorem zero_row_scores_intercept kind (st : estimator F L Loss) n W b rows s z :
  (∀ a, fadd f0 a = a) →
  fitted kind st n W b →
  rows !! s = Some z →
  Forall (λ x, x = f0) z →
  ∃ out,
    scores_of kind (Dense (Arr2 n rows)) st = (Ok out, st, []) ∧
    match kind with
    | Multiclass => ∃ S, out = Arr2 (length (classes st)) S ∧ S !! s = Some b
    | _ => ∃ v b0, out = Arr1 v ∧ b = [b0] ∧ v !! s = Some b0
    end.
Proof.
  intros Hadd Hfit Hs Hz. eexists. split.
  { exact (scores_of_fitted kind (Dense (Arr2 n rows)) st n W b Hfit eq_refl). }
  destruct Hfit as (Hwf & Hlen & Hkind).
  assert (linear_scores (Dense (Arr2 n rows)) W b !! s = Some b) as Hrow.
  { unfold linear_scores. rewrite stored_rows_dense, <- list_fmap_compose.
    rewrite list_lookup_fmap, Hs. simpl. f_equal.
    rewrite (sparse_row_zero z Hz). by apply zip_with_snd_id. }
  assert (Forall (λ r, length r = length W)
            (linear_scores (Dense (Arr2 n rows)) W b)) as Hwidth
    by by apply linear_scores_width.
  destruct kind; simpl.
  - destruct Hkind as (_ & HW1 & _ & _ & b0 & -> & _).
    do 2 eexists. split; [done|]. split; [done|].
    apply concat_singletons_lookup; [by rewrite <- HW1|done].
  - destruct Hkind as (_ & HWK & _). rewrite <- HWK. eauto.
  - destruct Hkind as (w & b0 & -> & -> & _).
    do 2 eexists. split; [done|]. split; [done|].
    by apply concat_singletons_lookup.
Qed.

(** X13 — Scoring is done row by row: for a fitted model, the scores of
    two dense feature matrices stacked on top of each other are the
    scores of the first followed by the scores of the second. *)
Theorem scores_of_stacked kind (st : estimator F L Loss) n W b r1 r2 :
  fitted kind st n W b →
  ∃ S1 S2,
    scores_of kind (Dense (Arr2 n r1)) st
      = (Ok (view_scores kind W S1), st, []) ∧
    scores_of kind (Dense (Arr2 n r2)) st
      = (Ok (view_scores kind W S2), st, []) ∧
    scores_of kind (Dense (Arr2 n (r1 ++ r2))) st
      = (Ok (view_scores kind W (S1 ++ S2)), st, []).
Proof.
  intros Hfit.
  exists (linear_scores (Dense (Arr2 n r1)) W b),
         (linear_scores (Dense (Arr2 n r2)) W b).
  split; [exact (scores_of_fitted kind (Dense (Arr2 n r1)) st n W b Hfit eq_refl)|].
  split; [exact (scores_of_fitted kind (Dense (Arr2 n r2)) st n W b Hfit eq_refl)|].
  rewrite (scores_of_fitted kind (Dense (Arr2 n (r1 ++ r2))) st n W b Hfit eq_refl).
  assert (linear_scores (Dense (Arr2 n (r1 ++ r2))) W b
          = linear_scores (Dense (Arr2 n r1)) W b
            ++ linear_scores (Dense (Arr2 n r2)) W b) as ->; [|done].
  unfold linear_scores. by rewrite !stored_rows_dense, fmap_app, fmap_app.
Qed.

(** X14 — For a fitted model and a dense, rectangular feature matrix, the
    scores are the ordinary matrix product with the rows of [coef_], plus
    the intercepts: entry [(s, c)] is the dot product of row [s] of the
    matrix with row [c] of [coef_], plus intercept [c].  This holds where
    every entry of the matrix times zero is zero and zero times every
    weight is zero (no entry is infinite or not a number), and adding
    zero changes nothing. *)
Theorem scores_of_dense kind (st : estimator F L Loss) n W b rows :
  Forall (Forall (λ x, fmul x f0 = f0)) rows →
  Forall (Forall (λ w, fmul f0 w = f0)) W →
  (∀ a, fadd a f0 = a) →
  fitted kind st n W b →
  Forall (λ r, length r = n) rows →
  scores_of kind (Dense (Arr2 n rows)) st
  = (Ok (view_scores kind W (dense_scores rows W b)), st, []).
Proof.
  intros Hmr Hml Hadd Hfit Hrows.
  rewrite (scores_of_fitted kind (Dense (Arr2 n rows)) st n W b Hfit eq_refl).
  destruct Hfit as (Hwf & _).
  assert (linear_scores (Dense (Arr2 n rows)) W b = dense_scores rows W b)
    as ->; [|done].
  unfold linear_scores, dense_scores.
  rewrite stored_rows_dense, <- list_fmap_compose.
  apply Forall_fmap_ext_1. apply Forall_forall. intros x Hin.
  pose proof (proj1 (Forall_forall _ _) Hrows x Hin) as Hx.
  pose proof (proj1 (Forall_forall _ _) Hmr x Hin) as Hxm.
  simpl in Hx, Hxm. simpl. apply zip_with_ext_in. intros w c Hw. f_equal.
  rewrite sdot_sdot_plain; [|by apply (sparse_row_Forall (λ x, fmul x f0 = f0))|done].
  apply sdot_plain_sparse_row; [|done|].
  - exact (proj1 (Forall_forall _ _) Hml w Hw).
  - rewrite Hx. symmetry. exact (proj1 (Forall_forall _ _) Hwf w Hw).
Qed.

(** X15 — On an estimator with sparse weights, the scoring methods raise
    [ValueError] on every feature matrix whose number of columns is not
    the number of columns of the weights, and leave the estimator as it
    is. *)
Theorem scoring_width_mismatch (X : matrix F) (st : estimator F L Loss) W :
  sparse_coef_ st = Some W →
  n_features X ≠ n_cols W →
  decision_function X st = (Raise ValueError, st, []) ∧
  predict X st = (Raise ValueError, st, []).
Proof.
  intros HW Hn. unfold decision_function, predict, dot_T_todense. run_m.
  rewrite HW. simpl.
  assert (match X with Sparse A => A | Dense a => csr_matrix a end = as_csr X)
    as -> by by destruct X.
  unfold n_features in Hn. by rewrite decide_False.
Qed.

(** X16 — The binary fit is the sub-fit of the second class: on the
    same estimator and data, the kernel call of a binary fit and the
    second kernel call of a multiclass fit get the same label vector, the
    same weight of the positive class, the same feature arrays and the
    same parameters; the binary call gets [class_weight[0]] as the weight
    of the negative class where the sub-fit gets [1.0]. *)
Theorem binary_call_is_second_ova_call X y (st : estimator F L Loss) a b :
  a ∈ (_fit_binary plain_sgd X y st).2 →
  (_fit_multiclass plain_sgd X y st).2 !! 1 = Some b →
  k_Y a = k_Y b ∧ k_weight_pos a = k_weight_pos b ∧
  class_weight st !! 0 = Some (k_weight_neg a) ∧ k_weight_neg b = f1 ∧
  carries_config st X a ∧ carries_config st X b.
Proof.
  intros Ha Hb.
  pose proof (fit_binary_calls_config X y st a Ha) as Ca.
  assert (b ∈ (_fit_multiclass plain_sgd X y st).2) as Hbin
    by (apply list_elem_of_lookup; eauto).
  pose proof (fit_multiclass_calls_config X y st b Hbin) as Cb.
  apply fit_multiclass_calls in Hb as (c & Hc & W & _ & _ & _ & Hpb & Hnb & HYb).
  destruct (fit_binary_cases plain_sgd X y st)
    as [[e He]|(c1 & cw1 & cw0 & Hc1 & H1 & H0)].
  { rewrite He in Ha. by apply elem_of_nil in Ha. }
  destruct (fit_binary_run plain_sgd X y st c1 cw1 cw0 Hc1 H1 H0)
    as (args & _ & _ & HYa & Hpa & Hna & E).
  rewrite E in Ha. assert (a = args) as ->.
  { destruct (plain_sgd args) as [[? ?]|]; [destruct (coef_ st)|];
      simpl in Ha; by apply list_elem_of_singleton in Ha. }
  rewrite Hc1 in Hc. inversion Hc; subst c.
  rewrite H1 in Hpb. inversion Hpb as [Hpb'].
  split; [by rewrite HYa, HYb|]. split; [by rewrite Hpa|].
  split; [by rewrite Hna|]. done.
Qed.

End FurtherFacts.

(** ** Runs on the sample instance *)

Import Sample.

(** *** The array operations on explicit values *)

Example csr_matrix_example :
  csr_matrix (Arr2 3 [[0; 2; 0]; [0; 0; 0]; [5; 0; 7]]%Z)
  = {| n_rows := 3; n_cols := 3; data := [2; 5; 7]%Z;
       indices := [1; 0; 2]; indptr := [0; 1; 1; 3] |}.
Proof. reflexivity. Qed.

Example todense_example :
  todense {| n_rows := 3; n_cols := 3; data := [2; 5; 7]%Z;
             indices := [1; 0; 2]; indptr := [0; 1; 1; 3] |}
  = Arr2 3 [[0; 2; 0]; [0; 0; 0]; [5; 0; 7]]%Z.
Proof. reflexivity. Qed.

Example csr_matrix_1d_example :
  csr_matrix (Arr1 [3; 0]%Z)
  = {| n_rows := 1; n_cols := 2; data := [3%Z]; indices := [0];
       indptr := [0; 1] |}.
Proof. reflexivity. Qed.

Example add_broadcast_vector_example :
  add_broadcast (Arr2 3 [[1; 2; 3]; [4; 5; 6]]%Z) (Arr1 [10; 20; 30]%Z)
  = Ok (Arr2 3 [[11; 22; 33]; [14; 25; 36]]%Z).
Proof. reflexivity. Qed.

Example add_broadcast_column_example :
  add_broadcast (Arr2 1 [[1]; [2]]%Z) (Arr1 [10; 20; 30]%Z)
  = Ok (Arr2 3 [[11; 21; 31]; [12; 22; 32]]%Z).
Proof. reflexivity. Qed.

Example add_broadcast_mismatch_example :
  add_broadcast (Arr2 2 [[1; 2]]%Z) (Arr1 [10; 20; 30]%Z) = Raise ValueError.
Proof. reflexivity. Qed.

Example setitem_vec_example :
  setitem_vec (Arr2 2 [[0; 0]; [0; 0]]%Z) 1 [7; 8]%Z
  = Ok (Arr2 2 [[0; 0]; [7; 8]]%Z) ∧
  setitem_vec (Arr2 2 [[0; 0]; [0; 0]]%Z) 1 [7]%Z
  = Ok (Arr2 2 [[0; 0]; [7; 7]]%Z) ∧
  setitem_vec (Arr2 2 [[0; 0]; [0; 0]]%Z) 1 [7; 8; 9]%Z = Raise ValueError ∧
  setitem_vec (Arr2 2 [[0; 0]; [0; 0]]%Z) 2 [7; 8]%Z = Raise IndexError.
Proof. repeat split. Qed.

(** *** The estimators on explicit values *)

Example decision_function_multiclass_example :
  (decision_function (Dense (Arr2 2 [[1; 2]; [0; 5]]%Z)) multi1).1.1
  = Ok (Arr2 3 [[4; 4; 7]; [6; 6; 11]]%Z).
Proof. reflexivity. Qed.

Example decision_function_sparse_example :
  (decision_function
     (Sparse {| n_rows := 2; n_cols := 2; data := [1; 2; 5]%Z;
                indices := [0; 1; 1]; indptr := [0; 2; 3] |}) multi1).1.1
  = Ok (Arr2 3 [[4; 4; 7]; [6; 6; 11]]%Z).
Proof. reflexivity. Qed.

Example decision_function_width_example :
  (decision_function (Dense (Arr2 3 [[1; 2; 3]]%Z)) multi1).1.1
  = Raise ValueError.
Proof. reflexivity. Qed.

Example fit_multiclass_example :
  coef_ multi1 = Some (Arr2 2 [[1; 1]; [1; 1]; [2; 2]]%Z) ∧
  intercept_ multi1 = Arr1 [1; 1; 1]%Z ∧
  k_Y <$> (_fit_multiclass toy_sgd X4 y_multi multi0).2
  = [[1; -1; -1; -1]; [-1; 1; -1; -1]; [-1; -1; 1; 1]]%Z ∧
  k_weight_pos <$> (_fit_multiclass toy_sgd X4 y_multi multi0).2 = [1; 2; 3]%Z ∧
  k_weight_neg <$> (_fit_multiclass toy_sgd X4 y_multi multi0).2 = [1; 1; 1]%Z.
Proof. repeat split. Qed.

Example predict_example :
  (predict (Dense (Arr2 2 [[1; 2]; [0; 5]]%Z))
     (_fit_regressor toy_sgd X4 targets regressor0).1.2).1.1
  = Ok (Arr1 [4; 1]%Z).
Proof. reflexivity. Qed.

(** On an estimator whose weights are not allocated the kernel is handed
    [None].  When it returns, the regressor fit returns with [coef_] and
    [sparse_coef_] still [None] and with the new intercept; the binary
    fit goes on with [np.atleast_2d(None)]; the multiclass fit raises on
    [self.coef_[0]] before any kernel call. *)
Example fit_unallocated_example :
  (∃ args,
      _fit_regressor step_sgd X4 targets unallocated
        = (Ok (), with_intercept unallocated (Arr0 1%Z), [args]) ∧
      k_w args = None) ∧
  (∃ args,
      _fit_binary step_sgd X4 y_binary unallocated
        = (Raise Unmodelled, unallocated, [args]) ∧
      k_w args = None) ∧
  _fit_multiclass step_sgd X4 y_binary unallocated
    = (Raise TypeError, unallocated, []).
Proof.
  split; [|split].
  - eexists. split; [vm_compute; reflexivity|reflexivity].
  - eexists. split; [vm_compute; reflexivity|reflexivity].
  - reflexivity.
Qed.

(** A regressor fit with a kernel that moves the weights: [coef_] holds
    the weights that the kernel returned, in one dimension. *)
Example fit_regressor_example :
  coef_ (_fit_regressor step_sgd X4 targets regressor0).1.2
    = Some (Arr1 [4; 1]%Z) ∧
  intercept_ (_fit_regressor step_sgd X4 targets regressor0).1.2 = Arr0 1%Z ∧
  todense <$> sparse_coef_ (_fit_regressor step_sgd X4 targets regressor0).1.2
    = Some (Arr2 2 [[4; 1]]%Z).
Proof. repeat split. Qed.

(** *** The claims on the sample instance *)

Lemma toy_sgd_length (args : sgd_args Z unit) coef b w :
  toy_sgd args = Some (coef, b) → k_w args = Some (Arr1 w) → length coef = length w.
Proof.
  unfold toy_sgd. intros E Hw. rewrite Hw in E. simpl in E.
  destruct (decide (k_weight_pos args = 0%Z)); [done|].
  inversion E; subst. by rewrite length_fmap.
Qed.

(** The scores of the fitted three-class classifier on the four samples. *)
Lemma decision_function_scores_witness :
  fitted Multiclass multi1 2 [[1; 1]; [1; 1]; [2; 2]]%Z [1; 1; 1]%Z ∧
  n_features X4 = 2 ∧
  ∃ out,
    scores_of Multiclass X4 multi1 = (Ok out, multi1, []) ∧
    out = Arr2 (length (classes multi1))
            (linear_scores X4 [[1; 1]; [1; 1]; [2; 2]]%Z [1; 1; 1]%Z) ∧
    length (linear_scores X4 [[1; 1]; [1; 1]; [2; 2]]%Z [1; 1; 1]%Z)
      = n_samples X4 ∧
    Forall (λ r, length r = length (classes multi1))
      (linear_scores X4 [[1; 1]; [1; 1]; [2; 2]]%Z [1; 1; 1]%Z).
Proof.
  assert (fitted Multiclass multi1 2 [[1; 1]; [1; 1]; [2; 2]]%Z [1; 1; 1]%Z) as Hf.
  { split; [repeat constructor|]. split; [reflexivity|].
    split; [vm_compute; lia|]. repeat split; reflexivity. }
  split; [exact Hf|]. split; [reflexivity|].
  exact (decision_function_scores Multiclass X4 multi1 2 _ _ Hf eq_refl).
Defined.

(** The binary fit of the sample classifier: the kernel returns the
    weights [[2; 2]] and the intercept [1]. *)
Lemma fit_binary_stores_returned_witness :
  classes binary0 !! 1 = Some 2 ∧
  class_weight binary0 !! 1 = Some 1%Z ∧
  class_weight binary0 !! 0 = Some 1%Z ∧
  coef_ binary0 = Some (Arr1 [0; 0]%Z) ∧
  atleast_2d (Arr1 [0; 0]%Z) = Arr2 (length [0; 0]%Z) [[0; 0]%Z] ∧
  ∃ args,
    (_fit_binary toy_sgd X4 y_binary binary0).2 = [args] ∧
    k_w args = Some (Arr1 [0; 0]%Z) ∧
    k_intercept args = intercept_ binary0 ∧
    toy_sgd args = Some ([2; 2]%Z, 1%Z) ∧
    length [2; 2]%Z = length [0; 0]%Z ∧
    ∃ st',
      _fit_binary toy_sgd X4 y_binary binary0 = (Ok (), st', [args]) ∧
      coef_ st' = Some (Arr2 (length [0; 0]%Z) [[2; 2]%Z]) ∧
      intercept_ st' = Arr0 1%Z ∧
      sparse_coef_ st'
        = Some (csr_matrix (Arr2 (length [0; 0]%Z) [[2; 2]%Z])) ∧
      todense <$> sparse_coef_ st' = coef_ st'.
Proof.
  do 5 (split; [reflexivity|]).
  destruct (fit_binary_stores_returned toy_sgd X4 y_binary binary0 2 1%Z 1%Z
              (Arr1 [0; 0]%Z) [0; 0]%Z eq_refl eq_refl eq_refl eq_refl eq_refl)
    as (args & Hcalls & Hkw & Hkb & Hret).
  assert (toy_sgd args = Some ([2; 2]%Z, 1%Z)) as Hk.
  { vm_compute in Hcalls. injection Hcalls as <-. reflexivity. }
  exists args. split; [exact Hcalls|]. split; [exact Hkw|].
  split; [exact Hkb|]. split; [exact Hk|]. split; [reflexivity|].
  exact (Hret _ _ Hk eq_refl).
Defined.

(** The class weights in the kernel calls of a classifier whose first
    class has the weight [5]: the sub-fit of the first class gets [5]
    and [1], the binary fit gets [2] and [5]. *)
Lemma class_weights_forwarded_witness :
  (∀ a, is_Some (step_sgd a)) ∧
  coef_ multi_weighted = Some (Arr2 2 [[0; 0]; [0; 0]; [0; 0]]%Z) ∧
  intercept_ multi_weighted = Arr1 [0; 0; 0]%Z ∧
  classes multi_weighted !! 0 = Some 1 ∧
  (∃ args,
      (_fit_multiclass step_sgd X4 y_multi multi_weighted).2 !! 0 = Some args ∧
      k_weight_neg args = 1%Z ∧ k_weight_pos args = 5%Z) ∧
  classes multi_weighted !! 1 = Some 2 ∧
  class_weight multi_weighted !! 1 = Some 2%Z ∧
  class_weight multi_weighted !! 0 = Some 5%Z ∧
  (∃ args,
      (_fit_binary step_sgd X4 y_multi multi_weighted).2 = [args] ∧
      k_weight_pos args = 2%Z ∧ k_weight_neg args = 5%Z).
Proof.
  assert (∀ a, is_Some (step_sgd a)) as Htotal by (intros a; by eexists).
  destruct (class_weights_forwarded step_sgd X4 y_multi multi_weighted)
    as [(_ & _ & Hmulti) (_ & _ & Hbinary)].
  split; [exact Htotal|]. do 3 (split; [reflexivity|]). split.
  { destruct (Hmulti 2 [[0; 0]; [0; 0]; [0; 0]]%Z [0; 0; 0]%Z Htotal
                eq_refl eq_refl) with (i := 0) (c := 1)
      as (args & Hi & Hn & Hp); [simpl; lia|simpl; lia|simpl; lia|reflexivity|].
    exists args. split; [exact Hi|]. split; [exact Hn|].
    simpl in Hp. by injection Hp. }
  do 3 (split; [reflexivity|]).
  exact (Hbinary 2 2%Z 5%Z eq_refl eq_refl eq_refl).
Defined.

(** The labels handed to the kernel by the binary fit of the sample
    classifier. *)
Lemma fit_binary_labels_witness :
  fmul f1 fneg1 = fneg1 ∧
  classes binary0 !! 1 = Some 2 ∧
  coef_ binary0 = Some (Arr1 [0; 0]%Z) ∧
  class_weight binary0 !! 1 = Some 1%Z ∧
  class_weight binary0 !! 0 = Some 1%Z ∧
  ∃ args,
    (_fit_binary toy_sgd X4 y_binary binary0).2 = [args] ∧
    k_Y args = (λ l, if decide (l = 2) then f1 else fneg1) <$> y_binary.
Proof.
  do 5 (split; [reflexivity|]).
  apply (fit_binary_labels toy_sgd X4 y_binary binary0 2 (Arr1 [0; 0]%Z) 1%Z 1%Z);
    reflexivity.
Defined.

(** The sub-fit of the third class of the sample classifier. *)
Lemma fit_multiclass_one_vs_rest_witness :
  fmul f1 fneg1 = fneg1 ∧
  (∀ args coef b w,
      toy_sgd args = Some (coef, b) → k_w args = Some (Arr1 w) →
      length coef = length w) ∧
  coef_ multi0 = Some (Arr2 2 [[0; 0]; [0; 0]; [0; 0]]%Z) ∧
  Forall (λ r, length r = 2) [[0; 0]; [0; 0]; [0; 0]]%Z ∧
  intercept_ multi0 = Arr1 [0; 0; 0]%Z ∧
  _fit_multiclass toy_sgd X4 y_multi multi0
    = (Ok (), multi1, (_fit_multiclass toy_sgd X4 y_multi multi0).2) ∧
  classes multi0 !! 2 = Some 3 ∧
  ∃ args w b coef b' rows' v',
    (_fit_multiclass toy_sgd X4 y_multi multi0).2 !! 2 = Some args ∧
    k_Y args = (λ l, if decide (l = 3) then f1 else fneg1) <$> y_multi ∧
    [[0; 0]; [0; 0]; [0; 0]]%Z !! 2 = Some w ∧ k_w args = Some (Arr1 w) ∧
    [0; 0; 0]%Z !! 2 = Some b ∧ k_intercept args = Arr0 b ∧
    toy_sgd args = Some (coef, b') ∧
    coef_ multi1 = Some (Arr2 2 rows') ∧ rows' !! 2 = Some coef ∧
    intercept_ multi1 = Arr1 v' ∧ v' !! 2 = Some b'.
Proof.
  assert (Forall (λ r : list Z, length r = 2) [[0; 0]; [0; 0]; [0; 0]]%Z) as Hwf
    by repeat constructor.
  assert (_fit_multiclass toy_sgd X4 y_multi multi0
          = (Ok (), multi1, (_fit_multiclass toy_sgd X4 y_multi multi0).2)) as Hfit
    by (vm_compute; reflexivity).
  split; [reflexivity|]. split; [exact toy_sgd_length|].
  split; [reflexivity|]. split; [exact Hwf|]. split; [reflexivity|].
  split; [exact Hfit|]. split; [reflexivity|].
  exact (fit_multiclass_one_vs_rest toy_sgd X4 y_multi multi0 multi1 _ 2 _ _
           eq_refl toy_sgd_length eq_refl Hwf eq_refl Hfit 2 3 eq_refl).
Defined.

(** The fit of the sample classifier with the results written back in
    reverse order. *)
Lemma write_back_order_independent_witness :
  (∀ res : list (nat * list Z * Z), reverse res ≡ₚ res) ∧
  _fit_multiclass toy_sgd X4 y_multi multi0
    = (Ok (), multi1, (_fit_multiclass toy_sgd X4 y_multi multi0).2) ∧
  _fit_multiclass_reordered toy_sgd reverse X4 y_multi multi0
    = (Ok (), multi1, (_fit_multiclass toy_sgd X4 y_multi multi0).2).
Proof.
  assert (_fit_multiclass toy_sgd X4 y_multi multi0
          = (Ok (), multi1, (_fit_multiclass toy_sgd X4 y_multi multi0).2)) as Hfit
    by (vm_compute; reflexivity).
  split; [exact reverse_Permutation|]. split; [exact Hfit|].
  exact (write_back_order_independent toy_sgd reverse X4 y_multi multi0 multi1 _
           reverse_Permutation Hfit).
Defined.

(** The sparse weights of the sample classifier after its fit. *)
Lemma sparse_coef_faithful_witness :
  wf_coef multi0 ∧
  run_fit toy_sgd (FitMulticlass X4 y_multi) multi0
    = (Ok (), multi1, (_fit_multiclass toy_sgd X4 y_multi multi0).2) ∧
  todense <$> sparse_coef_ multi1 = atleast_2d <$> coef_ multi1 ∧
  (∀ n rows, coef_ multi1 = Some (Arr2 n rows) →
     todense <$> sparse_coef_ multi1 = coef_ multi1).
Proof.
  assert (wf_coef multi0) as Hwf by (unfold wf_coef; simpl; repeat constructor).
  assert (run_fit toy_sgd (FitMulticlass X4 y_multi) multi0
          = (Ok (), multi1, (_fit_multiclass toy_sgd X4 y_multi multi0).2)) as Hfit
    by (vm_compute; reflexivity).
  split; [exact Hwf|]. split; [exact Hfit|].
  exact (sparse_coef_faithful toy_sgd (FitMulticlass X4 y_multi) multi0 multi1 _
           Hwf Hfit).
Defined.

(** The kernel call of the sample regressor. *)
Lemma fit_regressor_contract_witness :
  coef_ regressor0 = Some (Arr1 [3; 0]%Z) ∧
  ∃ args,
    (_fit_regressor toy_sgd X4 targets regressor0).2 = [args] ∧
    k_Y args = targets ∧
    k_weight_pos args = f1 ∧ k_weight_neg args = f1 ∧
    k_w args = Some (Arr1 [3; 0]%Z) ∧ k_intercept args = intercept_ regressor0 ∧
    is_1d <$> coef_ (_fit_regressor toy_sgd X4 targets regressor0).1.2 = Some true.
Proof.
  split; [reflexivity|].
  exact (fit_regressor_contract toy_sgd X4 targets regressor0 [3; 0]%Z eq_refl).
Defined.



(** *** The further facts on the sample instance *)

Lemma multi1_fitted :
  fitted Multiclass multi1 2 [[1; 1]; [1; 1]; [2; 2]]%Z [1; 1; 1]%Z.
Proof.
  split; [repeat constructor|]. split; [reflexivity|].
  split; [vm_compute; lia|]. repeat split; reflexivity.
Qed.

Lemma step_sgd_total (a : sgd_args Z unit) :
  ∃ coef b, step_sgd a = Some (coef, b) ∧
            ∀ w, k_w a = Some (Arr1 w) → length coef = length w.
Proof.
  unfold step_sgd. do 2 eexists. split; [reflexivity|].
  intros w Hw. rewrite Hw. simpl. by rewrite length_fmap.
Qed.



(** A binary fit on an estimator without classes. *)
Lemma fit_binary_needs_two_classes_witness :
  (length (classes regressor0) < 2 ∨ length (class_weight regressor0) < 2) ∧
  _fit_binary toy_sgd X4 y_binary regressor0
  = (Raise IndexError, regressor0, []).
Proof.
  assert (length (classes regressor0) < 2 ∨ length (class_weight regressor0) < 2)
    as Hs by (left; simpl; lia).
  split; [exact Hs|].
  exact (fit_binary_needs_two_classes toy_sgd X4 y_binary regressor0 Hs).
Defined.


(** The first and the last kernel call of the fit of the sample
    classifier. *)
Lemma ova_calls_differ_in_task_only_witness :
  match (_fit_multiclass toy_sgd X4 y_multi multi0).2 with
  | a :: _ :: b :: _ =>
      a ∈ (_fit_multiclass toy_sgd X4 y_multi multi0).2 ∧
      b ∈ (_fit_multiclass toy_sgd X4 y_multi multi0).2 ∧
      with_task_of a b = a
  | _ => False
  end.
Proof.
  pose proof (ova_calls_differ_in_task_only toy_sgd X4 y_multi multi0) as Hthm.
  destruct ((_fit_multiclass toy_sgd X4 y_multi multi0).2)
    as [|a [|a' [|b l]]] eqn:E; try (vm_compute in E; discriminate E).
  assert (a ∈ a :: a' :: b :: l) as Ha by left.
  assert (b ∈ a :: a' :: b :: l) as Hb by (right; right; left).
  split; [exact Ha|]. split; [exact Hb|]. exact (Hthm a b Ha Hb).
Defined.

(** The arrays handed to the kernel by the fit of the sample classifier. *)
Lemma kernel_gets_csr_of_input_witness :
  fit_input (FitMulticlass X4 y_multi)
    = Dense (Arr2 2 [[-1; -1]; [-2; -1]; [1; 1]; [2; 1]]%Z) ∧
  Forall (λ r, length r = 2) [[-1; -1]; [-2; -1]; [1; 1]; [2; 1]]%Z ∧
  match (run_fit toy_sgd (FitMulticlass X4 y_multi) multi0).2 with
  | args :: _ =>
      args ∈ (run_fit toy_sgd (FitMulticlass X4 y_multi) multi0).2 ∧
      todense {| n_rows := 4; n_cols := 2;
                 data := k_X_data args; indices := k_X_indices args;
                 indptr := k_X_indptr args |}
        = Arr2 2 [[-1; -1]; [-2; -1]; [1; 1]; [2; 1]]%Z ∧
      length (k_X_indptr args) = 5 ∧
      k_X_indptr args !! 0 = Some 0 ∧
      k_X_indptr args !! 4 = Some (length (k_X_data args)) ∧
      length (k_X_indices args) = length (k_X_data args) ∧
      Forall (λ j, j < 2) (k_X_indices args) ∧
      Forall (λ x, x ≠ f0) (k_X_data args)
  | [] => False
  end.
Proof.
  assert (Forall (λ r : list Z, length r = 2)
            [[-1; -1]; [-2; -1]; [1; 1]; [2; 1]]%Z) as Hwf by repeat constructor.
  split; [reflexivity|]. split; [exact Hwf|].
  pose proof (kernel_gets_csr_of_input toy_sgd (FitMulticlass X4 y_multi) multi0
                2 [[-1; -1]; [-2; -1]; [1; 1]; [2; 1]]%Z) as Hthm.
  destruct ((run_fit toy_sgd (FitMulticlass X4 y_multi) multi0).2)
    as [|args l] eqn:E; [vm_compute in E; discriminate E|].
  assert (args ∈ args :: l) as Ha by left.
  split; [exact Ha|]. exact (Hthm args eq_refl Hwf Ha).
Defined.

(** The first sample, of the first class, in the label vector of the
    third sub-fit. *)
Lemma ova_labels_partition_witness :
  fmul f1 fneg1 = fneg1 ∧
  NoDup (classes multi0) ∧
  y_multi !! 0 = Some 1 ∧
  classes multi0 !! 0 = Some 1 ∧
  match (_fit_multiclass toy_sgd X4 y_multi multi0).2 !! 2 with
  | Some args =>
      (_fit_multiclass toy_sgd X4 y_multi multi0).2 !! 2 = Some args ∧
      k_Y args !! 0 = Some (if decide (2 = 0) then f1 else fneg1)
  | None => False
  end.
Proof.
  assert (NoDup (classes multi0)) as Hnd.
  { apply (bool_decide_unpack _). vm_compute. reflexivity. }
  split; [reflexivity|]. split; [exact Hnd|]. split; [reflexivity|].
  split; [reflexivity|].
  pose proof (ova_labels_partition toy_sgd X4 y_multi multi0 0 1 0
                eq_refl Hnd eq_refl eq_refl 2) as Hthm.
  destruct ((_fit_multiclass toy_sgd X4 y_multi multi0).2 !! 2) as [args|] eqn:E;
    [|vm_compute in E; discriminate E].
  split; [reflexivity|]. exact (Hthm args eq_refl).
Defined.

(** The fit of the sample classifier with a kernel that always returns. *)
Lemma fit_multiclass_succeeds_witness :
  (∀ a, ∃ coef b, step_sgd a = Some (coef, b) ∧
                  ∀ w, k_w a = Some (Arr1 w) → length coef = length w) ∧
  coef_ multi0 = Some (Arr2 2 [[0; 0]; [0; 0]; [0; 0]]%Z) ∧
  Forall (λ r, length r = 2) [[0; 0]; [0; 0]; [0; 0]]%Z ∧
  intercept_ multi0 = Arr1 [0; 0; 0]%Z ∧
  length (classes multi0) ≤ length [[0; 0]; [0; 0]; [0; 0]]%Z ∧
  length (classes multi0) ≤ length [0; 0; 0]%Z ∧
  length (classes multi0) ≤ length (class_weight multi0) ∧
  ∃ st' calls,
    _fit_multiclass step_sgd X4 y_multi multi0 = (Ok (), st', calls) ∧
    length calls = length (classes multi0).
Proof.
  assert (Forall (λ r : list Z, length r = 2) [[0; 0]; [0; 0]; [0; 0]]%Z) as Hwf
    by repeat constructor.
  assert (length (classes multi0) ≤ 3) as H3 by (simpl; lia).
  split; [exact step_sgd_total|]. split; [reflexivity|]. split; [exact Hwf|].
  split; [reflexivity|]. do 3 (split; [exact H3|]).
  exact (fit_multiclass_succeeds step_sgd X4 y_multi multi0 2 _ _
           step_sgd_total eq_refl Hwf eq_refl H3 H3 H3).
Defined.

(** The second sub-fit of a second fit of the sample classifier. *)
Lemma fit_multiclass_warm_start_witness :
  (∀ args coef b w,
      toy_sgd args = Some (coef, b) → k_w args = Some (Arr1 w) →
      length coef = length w) ∧
  coef_ multi0 = Some (Arr2 2 [[0; 0]; [0; 0]; [0; 0]]%Z) ∧
  Forall (λ r, length r = 2) [[0; 0]; [0; 0]; [0; 0]]%Z ∧
  intercept_ multi0 = Arr1 [0; 0; 0]%Z ∧
  _fit_multiclass toy_sgd X4 y_multi multi0
    = (Ok (), multi1, (_fit_multiclass toy_sgd X4 y_multi multi0).2) ∧
  match (_fit_multiclass toy_sgd X4 y_multi multi1).2 !! 1 with
  | Some a2 =>
      (_fit_multiclass toy_sgd X4 y_multi multi1).2 !! 1 = Some a2 ∧
      ∃ a1 coef b,
        (_fit_multiclass toy_sgd X4 y_multi multi0).2 !! 1 = Some a1 ∧
        toy_sgd a1 = Some (coef, b) ∧
        k_w a2 = Some (Arr1 coef) ∧ k_intercept a2 = Arr0 b
  | None => False
  end.
Proof.
  assert (Forall (λ r : list Z, length r = 2) [[0; 0]; [0; 0]; [0; 0]]%Z) as Hwf
    by repeat constructor.
  assert (_fit_multiclass toy_sgd X4 y_multi multi0
          = (Ok (), multi1, (_fit_multiclass toy_sgd X4 y_multi multi0).2)) as Hfit
    by (vm_compute; reflexivity).
  split; [exact toy_sgd_length|]. split; [reflexivity|]. split; [exact Hwf|].
  split; [reflexivity|]. split; [exact Hfit|].
  pose proof (fit_multiclass_warm_start toy_sgd X4 y_multi X4 y_multi multi0
                multi1 _ 2 _ _ toy_sgd_length eq_refl Hwf eq_refl Hfit 1) as Hthm.
  destruct ((_fit_multiclass toy_sgd X4 y_multi multi1).2 !! 1) as [a2|] eqn:E;
    [|vm_compute in E; discriminate E].
  split; [reflexivity|]. exact (Hthm a2 eq_refl).
Defined.

(** Two binary fits of the sample classifier in a row. *)
Lemma fit_binary_refit_witness :
  coef_ binary0 = Some (Arr1 [0; 0]%Z) ∧
  atleast_2d (Arr1 [0; 0]%Z) = Arr2 (length [0; 0]%Z) [[0; 0]%Z] ∧
  (∀ args coef b,
      args ∈ (_fit_binary toy_sgd X4 y_binary binary0).2 →
      toy_sgd args = Some (coef, b) → length coef = length [0; 0]%Z) ∧
  _fit_binary toy_sgd X4 y_binary binary0
    = (Ok (), (_fit_binary toy_sgd X4 y_binary binary0).1.2,
       (_fit_binary toy_sgd X4 y_binary binary0).2) ∧
  ∃ a1 a2 coef b,
    (_fit_binary toy_sgd X4 y_binary binary0).2 = [a1] ∧
    toy_sgd a1 = Some (coef, b) ∧
    (_fit_binary toy_sgd X4 y_binary
       (_fit_binary toy_sgd X4 y_binary binary0).1.2).2 = [a2] ∧
    k_w a2 = Some (Arr2 (length [0; 0]%Z) [coef]) ∧ k_intercept a2 = Arr0 b.
Proof.
  assert (_fit_binary toy_sgd X4 y_binary binary0
          = (Ok (), (_fit_binary toy_sgd X4 y_binary binary0).1.2,
             (_fit_binary toy_sgd X4 y_binary binary0).2)) as Hfit
    by (vm_compute; reflexivity).
  assert (∀ args coef b,
            args ∈ (_fit_binary toy_sgd X4 y_binary binary0).2 →
            toy_sgd args = Some (coef, b) → length coef = length [0; 0]%Z)
    as Hkernel.
  { intros args coef b Hin Hk. apply list_elem_of_singleton in Hin. subst args.
    vm_compute in Hk. by inversion Hk. }
  split; [reflexivity|]. split; [reflexivity|]. split; [exact Hkernel|].
  split; [exact Hfit|].
  exact (fit_binary_refit toy_sgd X4 y_binary X4 y_binary binary0 _ _ _ [0; 0]%Z
           eq_refl eq_refl Hkernel Hfit).
Defined.

(** The scores of the fitted sample classifier on a zero row. *)
Lemma zero_row_scores_intercept_witness :
  (∀ a : Z, fadd f0 a = a) ∧
  fitted Multiclass multi1 2 [[1; 1]; [1; 1]; [2; 2]]%Z [1; 1; 1]%Z ∧
  [[1; 2]; [0; 0]]%Z !! 1 = Some [0; 0]%Z ∧
  Forall (λ x, x = f0) [0; 0]%Z ∧
  ∃ out,
    scores_of Multiclass (Dense (Arr2 2 [[1; 2]; [0; 0]]%Z)) multi1
      = (Ok out, multi1, []) ∧
    ∃ S, out = Arr2 (length (classes multi1)) S ∧ S !! 1 = Some [1; 1; 1]%Z.
Proof.
  assert (Forall (λ x : Z, x = f0) [0; 0]%Z) as Hz by repeat constructor.
  split; [exact Z.add_0_l|]. split; [exact multi1_fitted|].
  split; [reflexivity|]. split; [exact Hz|].
  exact (zero_row_scores_intercept Multiclass multi1 2 _ _
           [[1; 2]; [0; 0]]%Z 1 [0; 0]%Z Z.add_0_l multi1_fitted eq_refl Hz).
Defined.

(** The scores of the fitted sample classifier on two stacked matrices. *)
Lemma scores_of_stacked_witness :
  fitted Multiclass multi1 2 [[1; 1]; [1; 1]; [2; 2]]%Z [1; 1; 1]%Z ∧
  ∃ S1 S2,
    scores_of Multiclass (Dense (Arr2 2 [[1; 2]]%Z)) multi1
      = (Ok (view_scores Multiclass [[1; 1]; [1; 1]; [2; 2]]%Z S1), multi1, []) ∧
    scores_of Multiclass (Dense (Arr2 2 [[0; 5]]%Z)) multi1
      = (Ok (view_scores Multiclass [[1; 1]; [1; 1]; [2; 2]]%Z S2), multi1, []) ∧
    scores_of Multiclass (Dense (Arr2 2 ([[1; 2]] ++ [[0; 5]])%Z)) multi1
      = (Ok (view_scores Multiclass [[1; 1]; [1; 1]; [2; 2]]%Z (S1 ++ S2)),
         multi1, []).
Proof.
  split; [exact multi1_fitted|].
  exact (scores_of_stacked Multiclass multi1 2 _ _ [[1; 2]]%Z [[0; 5]]%Z
           multi1_fitted).
Defined.

(** The scores of the fitted sample classifier as a matrix product. *)
Lemma scores_of_dense_witness :
  Forall (Forall (λ x : Z, fmul x f0 = f0)) [[1; 2]; [0; 5]]%Z ∧
  Forall (Forall (λ w : Z, fmul f0 w = f0)) [[1; 1]; [1; 1]; [2; 2]]%Z ∧
  (∀ a : Z, fadd a f0 = a) ∧
  fitted Multiclass multi1 2 [[1; 1]; [1; 1]; [2; 2]]%Z [1; 1; 1]%Z ∧
  Forall (λ r, length r = 2) [[1; 2]; [0; 5]]%Z ∧
  scores_of Multiclass (Dense (Arr2 2 [[1; 2]; [0; 5]]%Z)) multi1
  = (Ok (view_scores Multiclass [[1; 1]; [1; 1]; [2; 2]]%Z
           (dense_scores [[1; 2]; [0; 5]]%Z [[1; 1]; [1; 1]; [2; 2]]%Z
              [1; 1; 1]%Z)), multi1, []).
Proof.
  assert (Forall (λ r : list Z, length r = 2) [[1; 2]; [0; 5]]%Z) as Hwf
    by repeat constructor.
  assert (Forall (Forall (λ x : Z, fmul x f0 = f0)) [[1; 2]; [0; 5]]%Z) as Hmr
    by repeat constructor.
  assert (Forall (Forall (λ w : Z, fmul f0 w = f0)) [[1; 1]; [1; 1]; [2; 2]]%Z)
    as Hml by repeat constructor.
  split; [exact Hmr|]. split; [exact Hml|].
  split; [exact Z.add_0_r|]. split; [exact multi1_fitted|]. split; [exact Hwf|].
  exact (scores_of_dense Multiclass multi1 2 _ _ [[1; 2]; [0; 5]]%Z
           Hmr Hml Z.add_0_r multi1_fitted Hwf).
Defined.

(** The fitted sample classifier on a matrix with three columns. *)
Lemma scoring_width_mismatch_witness :
  sparse_coef_ multi1
    = Some (csr_matrix (Arr2 2 [[1; 1]; [1; 1]; [2; 2]]%Z)) ∧
  n_features (Dense (Arr2 3 [[1; 2; 3]]%Z))
    ≠ n_cols (csr_matrix (Arr2 2 [[1; 1]; [1; 1]; [2; 2]]%Z)) ∧
  decision_function (Dense (Arr2 3 [[1; 2; 3]]%Z)) multi1
    = (Raise ValueError, multi1, []) ∧
  predict (Dense (Arr2 3 [[1; 2; 3]]%Z)) multi1 = (Raise ValueError, multi1, []).
Proof.
  assert (n_features (Dense (Arr2 3 [[1; 2; 3]]%Z))
          ≠ n_cols (csr_matrix (Arr2 2 [[1; 1]; [1; 1]; [2; 2]]%Z))) as Hn
    by (vm_compute; lia).
  split; [reflexivity|]. split; [exact Hn|].
  exact (scoring_width_mismatch (Dense (Arr2 3 [[1; 2; 3]]%Z)) multi1 _
           eq_refl Hn).
Defined.

(** The binary fit and the second sub-fit on the sample classifier. *)
Lemma binary_call_is_second_ova_call_witness :
  match (_fit_binary toy_sgd X4 y_multi multi0).2,
        (_fit_multiclass toy_sgd X4 y_multi multi0).2 !! 1 with
  | a :: _, Some b =>
      a ∈ (_fit_binary toy_sgd X4 y_multi multi0).2 ∧
      (_fit_multiclass toy_sgd X4 y_multi multi0).2 !! 1 = Some b ∧
      k_Y a = k_Y b ∧ k_weight_pos a = k_weight_pos b ∧
      class_weight multi0 !! 0 = Some (k_weight_neg a) ∧ k_weight_neg b = f1 ∧
      carries_config multi0 X4 a ∧ carries_config multi0 X4 b
  | _, _ => False
  end.
Proof.
  pose proof (binary_call_is_second_ova_call toy_sgd X4 y_multi multi0) as Hthm.
  destruct ((_fit_binary toy_sgd X4 y_multi multi0).2) as [|a l] eqn:Ea;
    [vm_compute in Ea; discriminate Ea|].
  destruct ((_fit_multiclass toy_sgd X4 y_multi multi0).2 !! 1) as [b|] eqn:Eb;
    [|vm_compute in Eb; discriminate Eb].
  assert (a ∈ a :: l) as Ha by left.
  split; [exact Ha|]. split; [reflexivity|]. exact (Hthm a b Ha eq_refl).
Defined.
